(** * main_script_creator: a verified model

    Shallow embedding of [main_xml_creator/main_script_creator.py]: the
    scanner that groups [MODEL.Test.xxx.xml] scripts by model name, the
    renderer of the aggregating [MODEL.xml] text, the writer and the
    command-line driver.

    Python values are modelled as follows: [str] is [string], [int] is [Z],
    a [dict] is an insertion-ordered association list (iteration order is
    what [main] observes), the file system is a record of finite maps and
    every function that touches it runs in a small state/exception monad
    that also records the trace of I/O operations. *)

From Stdlib Require Import ZArith Ascii String List Permutation.
From Equations Require Import Equations.
From Equations.Prop Require Import Logic.
From stdpp Require Import gmap strings list fin_maps.

Local Open Scope Z_scope.

(** ** Python strings *)

Module PyStr.

Definition chr (c : ascii) : string := String c EmptyString.

(** The characters that cannot be written inside a literal. *)
Definition dquote : string := chr "034"%char.
Definition newline : string := chr "010"%char.
Definition backslash : string := chr "092"%char.

(** [sub in s]. *)
Fixpoint contains (sub s : string) : bool :=
  String.prefix sub s ||
  match s with
  | EmptyString => false
  | String _ s' => contains sub s'
  end.

(** [s.find(sub)]: offset of the leftmost occurrence, [None] for -1. *)
Fixpoint find (sub s : string) : option nat :=
  if String.prefix sub s then Some 0%nat
  else match s with
       | EmptyString => None
       | String _ s' => S <$> find sub s'
       end.

Fixpoint take (n : nat) (s : string) : string :=
  match n, s with
  | S k, String c s' => String c (take k s')
  | _, _ => EmptyString
  end.

Fixpoint drop (n : nat) (s : string) : string :=
  match n, s with
  | S k, String _ s' => drop k s'
  | _, _ => s
  end.

(** [s.endswith(suffix)]. *)
Definition endswith (s suffix : string) : bool :=
  bool_decide (drop (String.length s - String.length suffix) s = suffix).

Lemma length_drop n s :
  String.length (drop n s) = (String.length s - n)%nat.
Proof.
  revert s; induction n as [|n IH]; intros [|c s]; simpl; auto with lia.
Qed.

Lemma find_nonempty a sep s i :
  find (String a sep) s = Some i -> (0 < String.length s)%nat.
Proof. destruct s; simpl; [discriminate | lia]. Qed.

(** [s.split(sep)]: cut at the leftmost occurrence of [sep], then split
    what follows it. Python raises [ValueError] on an empty separator;
    the program only ever passes the constant ['.Test.'], and the model
    returns the string whole in that case. *)
Equations? split (sep s : string) : list string by wf (String.length s) lt :=
  split EmptyString s := [s];
  split (String a sep) s with inspect (find (String a sep) s) => {
    | exist _ None _ := [s];
    | exist _ (Some i) e :=
        take i s :: split (String a sep) (drop (i + String.length (String a sep)) s) }.
Proof.
  apply find_nonempty in e. rewrite length_drop. simpl. lia.
Qed.

End PyStr.

(** ** Python integers: decimal printing and [format(i, '03d')] *)

Module PyInt.
Import PyStr.

Definition digit_char (d : Z) : ascii := ascii_of_nat (48 + Z.to_nat d).

(** Decimal digits of a non-negative integer, most significant first. *)
Equations? digits (n : Z) : string by wf (Z.to_nat n) lt :=
  digits n with decide (n < 10) => {
    | left _ := chr (digit_char n);
    | right _ := digits (n / 10) +:+ chr (digit_char (n mod 10)) }.
Proof.
  assert (0 <= n / 10 < n) by (split; [apply Z.div_pos | apply Z.div_lt]; lia).
  lia.
Qed.

Fixpoint zeros (k : nat) : string :=
  match k with
  | O => EmptyString
  | S k' => String "0"%char (zeros k')
  end.

(** [format(i, '0<width>d')]: sign-aware zero padding to a minimum width;
    the digits are never cut. *)
Definition format_0d (width : nat) (i : Z) : string :=
  let sign := if i <? 0 then "-"%string else EmptyString in
  let body := digits (Z.abs i) in
  sign +:+ zeros (width - String.length sign - String.length body) +:+ body.

(** Reading a string of decimal digits back, as [int(s)] does for an
    unsigned literal; [None] stands for [ValueError]. *)
Definition digit_value (c : ascii) : option Z :=
  let n := Z.of_nat (nat_of_ascii c) in
  if decide (48 <= n <= 57) then Some (n - 48) else None.

Fixpoint int_of_digits_from (acc : Z) (s : string) : option Z :=
  match s with
  | EmptyString => Some acc
  | String c s' =>
      match digit_value c with
      | Some d => int_of_digits_from (10 * acc + d) s'
      | None => None
      end
  end.

Definition int_of_digits (s : string) : option Z :=
  match s with
  | EmptyString => None
  | _ => int_of_digits_from 0 s
  end.

(** [range(lo, hi)]. *)
Definition range (lo hi : Z) : list Z := seqZ lo (hi - lo).

End PyInt.

(** ** Dictionaries

    A Python [dict] keeps its keys in insertion order; assigning to an
    existing key keeps the key's position. *)

Module PyDict.

Definition dict : Type := list (string * Z).

Definition empty : dict := [].

(** [d.get(k)], [None] when the key is absent. *)
Fixpoint get (k : string) (d : dict) : option Z :=
  match d with
  | [] => None
  | (k', v) :: d' => if decide (k' = k) then Some v else get k d'
  end.

(** [d[k] = v]. *)
Fixpoint set (k : string) (v : Z) (d : dict) : dict :=
  match d with
  | [] => [(k, v)]
  | (k', v') :: d' =>
      if decide (k' = k) then (k, v) :: d' else (k', v') :: set k v d'
  end.

(** [d.items()], in iteration order. *)
Definition items (d : dict) : list (string * Z) := d.

Definition keys (d : dict) : list string := d.*1.

(** The dictionary seen as a finite map. *)
Definition to_map (d : dict) : gmap string Z := list_to_map d.

End PyDict.

(** ** The program, pure part *)

Import PyStr PyInt.

Definition delimiter : string := ".Test.".

(** [l[0]]; [split] never returns an empty list, so the default is never
    used. *)
Definition item0 (l : list string) : string := hd EmptyString l.

(** One iteration of the loop of [scan_for_models]. The test
    [model_name not in models] and the read [models[model_name]] of the
    other branch are one lookup here. *)
Definition scan_step (models : PyDict.dict) (filename : string) : PyDict.dict :=
  if contains delimiter filename then
    let model_name := item0 (split delimiter filename) in
    match PyDict.get model_name models with
    | None => PyDict.set model_name 1 models
    | Some n => PyDict.set model_name (n + 1) models
    end
  else models.

(** The loop of [scan_for_models] over the names [os.listdir] returned. *)
Definition scan_filenames (filenames : list string) : PyDict.dict :=
  fold_left scan_step filenames PyDict.empty.

(** The string literals of [create_main_string]. *)
Definition lit_include : string := "<INCLUDE FileName=" +:+ dquote.
Definition lit_xml : string := ".xml" +:+ dquote +:+ " ".
Definition lit_attrs : string :=
  "NameSpace=" +:+ dquote +:+ dquote +:+ " TAB=" +:+ dquote +:+ "10" +:+ dquote
  +:+ " LineComment=" +:+ dquote +:+ "0" +:+ dquote +:+ "/>".

(** The right-hand side of the [+=] in the loop body; Python's [+] chain
    associates to the left. *)
Definition include_line (model_name : string) (i : Z) : string :=
  (((((lit_include +:+ model_name) +:+ delimiter) +:+ format_0d 3 i)
      +:+ lit_xml) +:+ lit_attrs) +:+ newline.

Definition create_main_string
    (model_name : string) (tests_count : Z) (header footer : string) : string :=
  let main_string := header in
  let main_string :=
    fold_left (fun acc i => acc +:+ include_line model_name i)
              (range 1 (tests_count + 1)) main_string in
  main_string +:+ footer.

(** The path computed by [create_main_file]. *)
Definition file_name_of (model_name : string) : string := model_name +:+ ".xml".

Definition dest_of (model_name destination_folder : string) : string :=
  let file_name := file_name_of model_name in
  let destination_folder :=
    if bool_decide (endswith destination_folder backslash = false)
    then destination_folder +:+ backslash
    else destination_folder in
  destination_folder +:+ file_name.

(** ** The environment and the monad of effects *)

(** What the program can observe of its host: the platform name, the text
    files it can read, the directories it can list (with their entries in
    the order the file system enumerates them), and which paths can be
    opened for writing. A path is a file's identity. *)
Record World := {
  platform_system : string;
  fs_files : gmap string string;
  fs_dirs : gmap string (list string);
  fs_can_write : string -> bool;
  fs_strerror : string -> string
}.

Definition write_file (path text : string) (w : World) : World :=
  {| platform_system := platform_system w;
     fs_files := <[path := text]> (fs_files w);
     fs_dirs := fs_dirs w;
     fs_can_write := fs_can_write w;
     fs_strerror := fs_strerror w |}.

(** Every operation the program performs on its host, in order. *)
Inductive event :=
| EvPrint (line : string)
| EvPPrint (models : PyDict.dict)
| EvOpenRead (path : string)
| EvListdir (path : string)
| EvOpenWrite (path : string)
| EvWrite (path text : string).

Definition is_output (e : event) : bool :=
  match e with EvPrint _ | EvPPrint _ => true | _ => false end.

Definition is_file_write (e : event) : bool :=
  match e with EvOpenWrite _ | EvWrite _ _ => true | _ => false end.

Definition is_file_read (e : event) : bool :=
  match e with EvOpenRead _ | EvListdir _ => true | _ => false end.

Record State := { world : World; trace : list event }.

Definition initial (w : World) : State := {| world := w; trace := [] |}.

Inductive exn :=
| IOError (msg : string)
| OSError (msg : string).

Definition exn_msg (e : exn) : string :=
  match e with IOError m | OSError m => m end.

Definition is_IOError (e : exn) : bool :=
  match e with IOError _ => true | OSError _ => false end.

Definition is_OSError (e : exn) : bool :=
  match e with OSError _ => true | IOError _ => false end.

(** A computation returns, raises, or leaves through [sys.exit]. *)
Inductive outcome (A : Type) :=
| Ret (a : A)
| Raise (e : exn)
| Exit (code : Z).
Arguments Ret {A} a.
Arguments Raise {A} e.
Arguments Exit {A} code.

Definition M (A : Type) : Type := State -> outcome A * State.

#[global] Instance M_ret : MRet M := fun A a s => (Ret a, s).

#[global] Instance M_bind : MBind M := fun A B f m s =>
  match m s with
  | (Ret a, s') => f a s'
  | (Raise e, s') => (Raise e, s')
  | (Exit c, s') => (Exit c, s')
  end.

Definition raise {A} (e : exn) : M A := fun s => (Raise e, s).

Definition sys_exit {A} (code : Z) : M A := fun s => (Exit code, s).

(** [try: body / except <class> as error: handler]. *)
Definition try_except {A} (body : M A) (class : exn -> bool) (handler : exn -> M A)
  : M A := fun s =>
  match body s with
  | (Raise e, s') => if class e then handler e s' else (Raise e, s')
  | r => r
  end.

Definition emit (e : event) : M unit := fun s =>
  (Ret (), {| world := world s; trace := trace s ++ [e] |}).

Definition print (line : string) : M unit := emit (EvPrint line).

Definition pprint (models : PyDict.dict) : M unit := emit (EvPPrint models).

Definition get_world : M World := fun s => (Ret (world s), s).

Definition put_world (w : World) : M unit := fun s =>
  (Ret (), {| world := w; trace := trace s |}).

Definition when (b : bool) (m : M unit) : M unit := if b then m else mret ().

Fixpoint for_each {A} (l : list A) (body : A -> M unit) : M unit :=
  match l with
  | [] => mret ()
  | x :: l' => body x ;; for_each l' body
  end.

(** [open(path, 'r').read()]. *)
Definition read_text (path : string) : M string :=
  emit (EvOpenRead path) ;;
  w ← get_world;
  match fs_files w !! path with
  | Some text => mret text
  | None => raise (IOError (fs_strerror w path))
  end.

(** [os.listdir(path)]. *)
Definition listdir (path : string) : M (list string) :=
  emit (EvListdir path) ;;
  w ← get_world;
  match fs_dirs w !! path with
  | Some names => mret names
  | None => raise (OSError (fs_strerror w path))
  end.

(** [with open(path, 'w+') as file: file.write(text)]: opening truncates
    or creates the file. A write fails at the open, before the file is
    touched, or succeeds whole. *)
Definition write_text (path text : string) : M unit :=
  emit (EvOpenWrite path) ;;
  w ← get_world;
  if fs_can_write w path then
    emit (EvWrite path text) ;;
    put_world (write_file path text w)
  else raise (IOError (fs_strerror w path)).

(** ** The program, effectful part *)

Definition load_header (path_to_header_file : string) : M string :=
  try_except
    (header ← read_text path_to_header_file;
     mret header)
    is_IOError
    (fun error =>
       print ("Couldn't read header file " +:+ newline +:+ "(" +:+ exn_msg error +:+ ").") ;;
       raise error).

Definition load_footer (path_to_footer_file : string) : M string :=
  try_except
    (footer ← read_text path_to_footer_file;
     mret footer)
    is_IOError
    (fun error =>
       print ("Couldn't read footer file (" +:+ exn_msg error +:+ ").") ;;
       print (exn_msg error) ;;
       raise error).

Definition scan_for_models (script_folder_path : string) : M PyDict.dict :=
  filenames ←
    try_except
      (listdir script_folder_path)
      is_OSError
      (fun error =>
         print "Error scaning origin directory!" ;;
         print (exn_msg error) ;;
         raise error);
  mret (scan_filenames filenames).

Definition create_main_file
    (model_name main_string destination_folder : string) : M Z :=
  let dest := dest_of model_name destination_folder in
  try_except
    (write_text dest main_string ;;
     mret 0)
    is_IOError
    (fun error =>
       print ("Couldn't open or write to file (" +:+ exn_msg error +:+ ").") ;;
       raise error).

(** The namespace [parser.parse_args()] returns. *)
Record Args := {
  origin_folder : string;
  destination_folder : string;
  path_to_header : string;
  path_to_footer : string;
  verbose : bool
}.

(** [main], from the namespace of a successful [parse_args] on: the
    platform test comes first, as in the source. *)
Definition main (args : Args) : M unit :=
  w ← get_world;
  (if bool_decide (platform_system w ≠ "Windows") then
     print ("This script only runs properly on Windows." +:+ newline) ;;
     sys_exit 1
   else mret ()) ;;
  when (verbose args)
    (print (newline +:+ "Verbosity turned on!" +:+ newline)) ;;
  header ←
    try_except (load_header (path_to_header args)) is_IOError
      (fun _ => sys_exit 1);
  when (verbose args) (print ("Header successfully loaded!" +:+ newline)) ;;
  footer ←
    try_except (load_footer (path_to_footer args)) is_IOError
      (fun _ => sys_exit 1);
  when (verbose args) (print ("Footer successfully loaded!" +:+ newline)) ;;
  models ←
    try_except (scan_for_models (origin_folder args)) is_OSError
      (fun _ => sys_exit 1);
  when (verbose args)
    (print ("The folliwng models detected are shown as: {'model_name': test_count}"
            +:+ newline) ;;
     pprint models ;;
     print EmptyString) ;;
  for_each (PyDict.items models) (fun '(model_name, test_count) =>
    let main_string := create_main_string model_name test_count header footer in
    try_except
      (create_main_file model_name main_string (destination_folder args) ;;
       mret ())
      is_IOError
      (fun _ => sys_exit 1)) ;;
  when (verbose args) (print "Created model_name.xml files successfully!") ;;
  sys_exit 0.

(** Running the script: the process exit status and the final state. An
    exception that reaches the top level ends the process with status 1. *)
Definition run_main (w : World) (args : Args) : Z * State :=
  match main args (initial w) with
  | (Exit code, s) => (code, s)
  | (Raise _, s) => (1, s)
  | (Ret _, s) => (0, s)
  end.

Definition exit_status (w : World) (args : Args) : Z := (run_main w args).1.
Definition final_files (w : World) (args : Args) : gmap string string :=
  fs_files (world (run_main w args).2).
Definition final_trace (w : World) (args : Args) : list event :=
  trace (run_main w args).2.

(** ** Specification vocabulary

    The notions the properties are stated with, independent of the code
    above. *)

(** [sub] occurs in [s] right after the prefix [p]. *)
Definition occurs_after (sub s p : string) : Prop :=
  ∃ r, s = p +:+ sub +:+ r.

Definition has_substring (sub s : string) : Prop :=
  ∃ p, occurs_after sub s p.

(** [p] is the part of [s] before the first occurrence of [sub]. *)
Definition before_first (sub s p : string) : Prop :=
  occurs_after sub s p ∧
  ∀ p', occurs_after sub s p' → (String.length p <= String.length p')%nat.

Definition ends_with (s suffix : string) : Prop := ∃ p, s = p +:+ suffix.

(** Concatenation of a list of strings. *)
Definition join (l : list string) : string := foldr String.app EmptyString l.

(** The decimal representation of [i], left-padded with zeros to a minimum
    width. *)
Definition zero_padded (width : nat) (i : Z) : string :=
  zeros (width - String.length (digits i)) +:+ digits i.

(** The include line as the specification writes it. *)
Definition spec_include_line (g : string) (i : Z) : string :=
  "<INCLUDE FileName=" +:+ dquote +:+ g +:+ ".Test." +:+ zero_padded 3 i +:+ ".xml"
  +:+ dquote +:+ " NameSpace=" +:+ dquote +:+ dquote +:+ " TAB=" +:+ dquote +:+ "10"
  +:+ dquote +:+ " LineComment=" +:+ dquote +:+ "0" +:+ dquote +:+ "/>" +:+ newline.

Fixpoint all_chars (P : ascii -> bool) (s : string) : bool :=
  match s with
  | EmptyString => true
  | String c s' => P c && all_chars P s'
  end.

Definition is_digit (c : ascii) : bool := bool_decide (is_Some (digit_value c)).

(** The group an entry name belongs to, if any. *)
Definition model_of (filename : string) : option string :=
  if contains delimiter filename
  then Some (item0 (split delimiter filename))
  else None.

(** [tallies g listing n]: exactly [n] entries of [listing] have [g] before
    their first delimiter. *)
Inductive tallies (g : string) : list string → nat → Prop :=
| tallies_nil : tallies g [] 0
| tallies_hit e l n :
    before_first delimiter e g → tallies g l n → tallies g (e :: l) (S n)
| tallies_miss e l n :
    ¬ before_first delimiter e g → tallies g l n → tallies g (e :: l) n.

(** The same count, computed with the code's own grouping function. *)
Definition tally (g : string) (listing : list string) : nat :=
  length (filter (λ e, model_of e = Some g) listing).

(** A group with no member has no entry in the table. *)
Definition count_of (n : nat) : option Z :=
  match n with O => None | S _ => Some (Z.of_nat n) end.

(** The I/O operations of a trace, without what was printed. *)
Definition io_events (t : list event) : list event :=
  filter (λ e, is_output e = false) t.

(** Reference behaviour of the per-group loop of [main]: exit status so
    far (0 while every write succeeded), the world and the write operations
    performed. The first file that cannot be opened ends the loop. *)
Fixpoint write_groups (header footer dest_dir : string)
    (groups : list (string * Z)) (w : World) : Z * World * list event :=
  match groups with
  | [] => (0, w, [])
  | (g, c) :: rest =>
      let dest := dest_of g dest_dir in
      let text := create_main_string g c header footer in
      if fs_can_write w dest then
        let '(status, w', evs) :=
          write_groups header footer dest_dir rest (write_file dest text w) in
        (status, w', EvOpenWrite dest :: EvWrite dest text :: evs)
      else (1, w, [EvOpenWrite dest])
  end.

(** Reference behaviour of a whole run: exit status, final world and I/O
    operations. The verbose flag is not an input. *)
Definition run_effect (w : World) (origin dest_dir hdr ftr : string)
  : Z * World * list event :=
  if decide (platform_system w = "Windows") then
    match fs_files w !! hdr with
    | None => (1, w, [EvOpenRead hdr])
    | Some header =>
        match fs_files w !! ftr with
        | None => (1, w, [EvOpenRead hdr; EvOpenRead ftr])
        | Some footer =>
            match fs_dirs w !! origin with
            | None => (1, w, [EvOpenRead hdr; EvOpenRead ftr; EvListdir origin])
            | Some names =>
                let '(status, w', evs) :=
                  write_groups header footer dest_dir (scan_filenames names) w in
                (status, w',
                 [EvOpenRead hdr; EvOpenRead ftr; EvListdir origin] ++ evs)
            end
        end
    end
  else (1, w, []).

(** The files after every group of [groups] has been written, in order. *)
Definition written_files (header footer dest_dir : string)
    (groups : list (string * Z)) (files : gmap string string)
  : gmap string string :=
  fold_left
    (λ m '(g, c), <[dest_of g dest_dir := create_main_string g c header footer]> m)
    groups files.

(** The destination of every group of [groups] can be opened for writing. *)
Definition all_writable (w : World) (dest_dir : string)
    (groups : list (string * Z)) : Prop :=
  ∀ g c, (g, c) ∈ groups → fs_can_write w (dest_of g dest_dir) = true.

(** Every step of a run succeeds: the platform test, both template loads,
    the scan, and the write of every group's file. *)
Definition all_steps_succeed (w : World) (args : Args) : Prop :=
  platform_system w = "Windows" ∧
  is_Some (fs_files w !! path_to_header args) ∧
  is_Some (fs_files w !! path_to_footer args) ∧
  ∃ names, fs_dirs w !! origin_folder args = Some names ∧
    ∀ g, g ∈ PyDict.keys (scan_filenames names) →
      fs_can_write w (dest_of g (destination_folder args)) = true.

(** A template load or the scan fails (on a host that passes the platform
    test). *)
Definition load_or_scan_fails (w : World) (args : Args) : Prop :=
  fs_files w !! path_to_header args = None ∨
  fs_files w !! path_to_footer args = None ∨
  fs_dirs w !! origin_folder args = None.

Definition with_verbose (v : bool) (args : Args) : Args :=
  {| origin_folder := origin_folder args;
     destination_folder := destination_folder args;
     path_to_header := path_to_header args;
     path_to_footer := path_to_footer args;
     verbose := v |}.

(** Sample hosts and invocations, used to exercise the statements below:
    two templates and a source directory with two groups; the same host
    where [Y.xml] cannot be written; a host whose source directory holds
    one entry named [.Test.001.xml]; and a host of another platform. *)
Definition sample_args : Args :=
  {| origin_folder := "in"; destination_folder := "out";
     path_to_header := "h.txt"; path_to_footer := "f.txt"; verbose := false |}.

Definition sample_world : World :=
  {| platform_system := "Windows";
     fs_files := {[ "h.txt"%string := "<ROOT>" +:+ newline;
                    "f.txt"%string := "</ROOT>" +:+ newline ]};
     fs_dirs := {[ "in"%string :=
                   [ "X.Test.001.xml"; "X.Test.002.xml"; "notes.txt";
                     "Y.Test.001.xml" ]%string ]};
     fs_can_write := λ _, true;
     fs_strerror := λ path, "[Errno 13] Permission denied: " +:+ path |}.

Definition locked_world : World :=
  {| platform_system := platform_system sample_world;
     fs_files := fs_files sample_world;
     fs_dirs := fs_dirs sample_world;
     fs_can_write := λ path, negb (String.eqb path (dest_of "Y" "out"));
     fs_strerror := fs_strerror sample_world |}.

Definition dot_world : World :=
  {| platform_system := "Windows";
     fs_files := fs_files sample_world;
     fs_dirs := {[ "in"%string := [".Test.001.xml"%string] ]};
     fs_can_write := λ _, true;
     fs_strerror := fs_strerror sample_world |}.

Definition other_platform_world : World :=
  {| platform_system := "Linux";
     fs_files := fs_files sample_world;
     fs_dirs := fs_dirs sample_world;
     fs_can_write := fs_can_write sample_world;
     fs_strerror := fs_strerror sample_world |}.

(** The sum of the counts of a table. *)
Definition sum_counts (d : PyDict.dict) : Z := foldr (λ kv acc, kv.2 + acc) 0 d.

(** What a trace printed, without the I/O operations. *)
Definition outputs (t : list event) : list event :=
  filter (λ e, is_output e = true) t.

(** What the per-group loop of [main] prints: nothing while the writes
    succeed, one line for the first file that cannot be opened. *)
Fixpoint write_groups_output (dest_dir : string)
    (groups : list (string * Z)) (w : World) : list event :=
  match groups with
  | [] => []
  | (g, _) :: rest =>
      if fs_can_write w (dest_of g dest_dir) then
        write_groups_output dest_dir rest w
      else
        [EvPrint ("Couldn't open or write to file (" +:+
                  fs_strerror w (dest_of g dest_dir) +:+ ").")]
  end.

(** Reference for what a whole run prints, in order. *)
Definition run_output (w : World) (args : Args) : list event :=
  let say line := if verbose args then [EvPrint line] else [] in
  if decide (platform_system w = "Windows") then
    say (newline +:+ "Verbosity turned on!" +:+ newline) ++
    match fs_files w !! path_to_header args with
    | None =>
        [EvPrint ("Couldn't read header file " +:+ newline +:+ "(" +:+
                  fs_strerror w (path_to_header args) +:+ ").")]
    | Some header =>
        say ("Header successfully loaded!" +:+ newline) ++
        match fs_files w !! path_to_footer args with
        | None =>
            [EvPrint ("Couldn't read footer file (" +:+
                      fs_strerror w (path_to_footer args) +:+ ").");
             EvPrint (fs_strerror w (path_to_footer args))]
        | Some footer =>
            say ("Footer successfully loaded!" +:+ newline) ++
            match fs_dirs w !! origin_folder args with
            | None =>
                [EvPrint "Error scaning origin directory!";
                 EvPrint (fs_strerror w (origin_folder args))]
            | Some names =>
                (if verbose args then
                   [EvPrint ("The folliwng models detected are shown as: {'model_name': test_count}"
                             +:+ newline);
                    EvPPrint (scan_filenames names);
                    EvPrint EmptyString]
                 else []) ++
                write_groups_output (destination_folder args)
                  (scan_filenames names) w ++
                (if decide ((write_groups header footer (destination_folder args)
                               (scan_filenames names) w).1.1 = 0)
                 then say "Created model_name.xml files successfully!"
                 else [])
            end
        end
    end
  else [EvPrint ("This script only runs properly on Windows." +:+ newline)].

(** ** Strings: basic facts *)

Section string_facts.
Implicit Types s p r sub : string.
#[local] Arguments String.append !_ _ / : simpl nomatch.

Lemma str_app_nil_r s : s +:+ EmptyString = s.
Proof. induction s; cbn; congruence. Qed.

Lemma str_app_assoc s1 s2 s3 : (s1 +:+ s2) +:+ s3 = s1 +:+ s2 +:+ s3.
Proof. induction s1; cbn; congruence. Qed.

Lemma str_app_cons c s1 s2 : String c s1 +:+ s2 = String c (s1 +:+ s2).
Proof. reflexivity. Qed.

Lemma str_app_nil_l s : EmptyString +:+ s = s.
Proof. reflexivity. Qed.

Lemma str_length_app s1 s2 :
  String.length (s1 +:+ s2) = (String.length s1 + String.length s2)%nat.
Proof. induction s1; cbn; congruence. Qed.

Lemma str_app_inv_tail s1 s2 s : s1 +:+ s = s2 +:+ s → s1 = s2.
Proof.
  revert s2; induction s1 as [|c s1 IH]; intros [|c2 s2] H; cbn in H.
  - done.
  - apply (f_equal String.length) in H. cbn in H. rewrite str_length_app in H. lia.
  - apply (f_equal String.length) in H. cbn in H. rewrite str_length_app in H. lia.
  - injection H as -> H. f_equal. by apply IH.
Qed.

Lemma prefix_spec p s : String.prefix p s = true ↔ ∃ r, s = p +:+ r.
Proof.
  revert s; induction p as [|c p IH]; intros s.
  - split; [intros _; by exists s | by destruct s].
  - destruct s as [|c' s]; cbn.
    + split; [done | by intros [r ?]].
    + destruct (ascii_dec c c') as [->|Hne].
      * rewrite IH. split; intros [r ?]; exists r; congruence.
      * split; [done | intros [r ?]; congruence].
Qed.

Lemma prefix_dec p s : (∃ r, s = p +:+ r) ∨ (∀ r, s ≠ p +:+ r).
Proof.
  destruct (String.prefix p s) eqn:Hp.
  - left. by apply prefix_spec.
  - right. intros r Hr. assert (String.prefix p s = true); [|congruence].
    apply prefix_spec; eauto.
Qed.

Lemma contains_nil sub :
  contains sub EmptyString = String.prefix sub EmptyString.
Proof. cbn [contains]. apply orb_false_r. Qed.

Lemma contains_cons sub c s :
  contains sub (String c s) = String.prefix sub (String c s) || contains sub s.
Proof. reflexivity. Qed.

Lemma contains_spec sub s : contains sub s = true ↔ has_substring sub s.
Proof.
  unfold has_substring, occurs_after. induction s as [|c s IH].
  - rewrite contains_nil, prefix_spec. split.
    + intros [r ?]. by exists EmptyString, r.
    + intros ([|c p] & r & ?); [by exists r | done].
  - rewrite contains_cons, orb_true_iff, prefix_spec, IH. split.
    + intros [[r ?]|(p & r & ->)]; [by exists EmptyString, r|].
      by exists (String c p), r.
    + intros ([|c' p] & r & H); [left; by exists r|].
      right. injection H as -> ->. by exists p, r.
Qed.

Lemma find_unfold sub s :
  find sub s =
  if String.prefix sub s then Some 0%nat
  else match s with
       | EmptyString => None
       | String _ s' => S <$> find sub s'
       end.
Proof. by destruct s. Qed.

Lemma find_here sub s : (∃ r, s = sub +:+ r) → find sub s = Some 0%nat.
Proof. intros H%prefix_spec. by rewrite find_unfold, H. Qed.

Lemma find_later sub c s :
  (∀ r, String c s ≠ sub +:+ r) → find sub (String c s) = S <$> find sub s.
Proof.
  intros Hno. rewrite find_unfold.
  destruct (String.prefix sub (String c s)) eqn:Hp; [|done].
  apply prefix_spec in Hp as [r Hr]. by destruct (Hno r).
Qed.

Lemma find_nil_None sub :
  (∀ r, EmptyString ≠ sub +:+ r) → find sub EmptyString = None.
Proof.
  intros Hno. rewrite find_unfold.
  destruct (String.prefix sub EmptyString) eqn:Hp; [|done].
  apply prefix_spec in Hp as [r Hr]. by destruct (Hno r).
Qed.

Lemma before_first_here sub s :
  (∃ r, s = sub +:+ r) → ∀ p, before_first sub s p ↔ p = EmptyString.
Proof.
  intros [r Hr] p. split.
  - intros [_ Hmin]. specialize (Hmin EmptyString (ex_intro _ r Hr)).
    destruct p; [done | simpl in Hmin; lia].
  - intros ->. split; [by exists r | intros; simpl; lia].
Qed.

Lemma before_first_later sub c s :
  (∀ r, String c s ≠ sub +:+ r) →
  ∀ p, before_first sub (String c s) p ↔
       ∃ p', p = String c p' ∧ before_first sub s p'.
Proof.
  intros Hno p. split.
  - intros [[r Hr] Hmin]. destruct p as [|c' p]; [by destruct (Hno r)|].
    simpl in Hr. injection Hr as <- Hr. exists p. split; [done|].
    split; [by exists r|]. intros q [r' Hr'].
    specialize (Hmin (String c q)). simpl in Hmin.
    assert (S (String.length p) <= S (String.length q))%nat; [|lia].
    apply Hmin. exists r'. simpl. by rewrite Hr'.
  - intros (p' & -> & [r Hr] & Hmin). split.
    + exists r. simpl. by rewrite Hr.
    + intros [|c' q] [r' Hr']; [by destruct (Hno r')|].
      simpl in Hr'. injection Hr' as <- Hr'. simpl.
      specialize (Hmin q (ex_intro _ r' Hr')). lia.
Qed.

Lemma before_first_nil sub p :
  before_first sub EmptyString p → p = EmptyString.
Proof. intros [[r Hr] _]. by destruct p. Qed.

(** [find] returns the length of the part before the first occurrence. *)
Lemma find_Some sub s i :
  find sub s = Some i ↔
  ∃ p, before_first sub s p ∧ String.length p = i.
Proof.
  revert i; induction s as [|c s IH]; intros i.
  - destruct (prefix_dec sub EmptyString) as [Hp|Hno].
    + rewrite (find_here _ _ Hp). split.
      * intros [= <-]. exists EmptyString. by rewrite before_first_here.
      * intros (p & Hb & <-). apply before_first_here in Hb as ->; done.
    + rewrite (find_nil_None _ Hno). split; [done|].
      intros (p & [[r Hr] _] & _). destruct p; [by destruct (Hno r) | done].
  - destruct (prefix_dec sub (String c s)) as [Hp|Hno].
    + rewrite (find_here _ _ Hp). split.
      * intros [= <-]. exists EmptyString. by rewrite before_first_here.
      * intros (p & Hb & <-). apply before_first_here in Hb as ->; done.
    + rewrite (find_later _ _ _ Hno). split.
      * destruct (find sub s) as [j|]; [|done]. intros [= <-].
        destruct (proj1 (IH j) eq_refl) as (p & Hb & <-).
        exists (String c p). split; [|done].
        apply before_first_later; eauto.
      * intros (p & Hb & <-). apply before_first_later in Hb as (p' & -> & Hb); [|done].
        rewrite (proj2 (IH (String.length p'))); [done|]. eauto.
Qed.

Lemma str_length_take n s : (n <= String.length s)%nat → String.length (take n s) = n.
Proof.
  revert s; induction n as [|n IH]; intros [|c s]; simpl; auto with lia.
Qed.

Lemma str_take_app p r : take (String.length p) (p +:+ r) = p.
Proof. induction p; simpl; [by destruct r | congruence]. Qed.

Lemma str_drop_app p r : drop (String.length p) (p +:+ r) = r.
Proof. induction p; simpl; [by destruct r | congruence]. Qed.

Lemma find_take sub s i p :
  before_first sub s p → String.length p = i → take i s = p.
Proof. intros [[r ->] _] <-. apply str_take_app. Qed.

Lemma before_first_unique sub s p1 p2 :
  before_first sub s p1 → before_first sub s p2 → p1 = p2.
Proof.
  intros H1 H2.
  assert (String.length p1 = String.length p2) as Hlen.
  { destruct H1 as [O1 M1], H2 as [O2 M2].
    specialize (M1 _ O2). specialize (M2 _ O1). lia. }
  destruct H1 as [[r1 E1] _], H2 as [[r2 E2] _].
  rewrite <- (str_take_app p1 (sub +:+ r1)), <- E1, Hlen, E2. apply str_take_app.
Qed.

End string_facts.

(** ** The grouping rule *)

Section grouping.

Lemma split_head sep s :
  sep ≠ EmptyString →
  item0 (split sep s) =
  match find sep s with Some i => take i s | None => s end.
Proof.
  destruct sep as [|a sub]; [done|]. intros _.
  rewrite split_equation_2.
  destruct (Logic.inspect (find (String a sub) s)) as [[i|] e];
    simp split; by rewrite e.
Qed.

Example split_twice :
  split ".Test." "A.Test.001.Test.xml" = ["A"; "001"; "xml"]%string.
Proof. reflexivity. Qed.

Lemma split_nonempty sep s : split sep s ≠ [].
Proof.
  destruct sep as [|a sep]; [by rewrite split_equation_1|].
  rewrite split_equation_2.
  by destruct (Logic.inspect (find (String a sep) s)) as [[i|] e]; simp split.
Qed.

(** The code's group of an entry is the part before the first
    occurrence of the delimiter. *)
Lemma model_of_Some e g : model_of e = Some g ↔ before_first delimiter e g.
Proof.
  unfold model_of. destruct (contains delimiter e) eqn:Hc.
  - apply contains_spec in Hc as [p Hp].
    rewrite split_head by done.
    destruct (find delimiter e) as [i|] eqn:Hf.
    + apply find_Some in Hf as (q & Hq & Hlen).
      rewrite (find_take _ _ _ _ Hq Hlen). split.
      * by intros [= <-].
      * intros Hg. f_equal. by eapply before_first_unique.
    + exfalso. clear g. revert p Hp Hf.
      induction e as [|c e IH]; intros p Hp Hf.
      * destruct Hp as [r Hr]. by destruct p.
      * rewrite find_unfold in Hf.
        destruct (String.prefix delimiter (String c e)) eqn:Hpre; [done|].
        destruct (find delimiter e) eqn:Hfe; [done|].
        destruct Hp as [r Hr]. destruct p as [|c' p].
        -- assert (String.prefix delimiter (String c e) = true); [|congruence].
           apply prefix_spec. by exists r.
        -- injection Hr as -> Hr. apply (IH p); [by exists r | done].
  - split; [done|]. intros [Ho _].
    assert (contains delimiter e = true); [|congruence].
    apply contains_spec. by exists g.
Qed.

Lemma model_of_None e : model_of e = None ↔ ¬ has_substring delimiter e.
Proof.
  unfold model_of. rewrite <- contains_spec.
  destruct (contains delimiter e); split; done.
Qed.

End grouping.


(** ** Dictionaries: lookup after assignment *)

Section dict_facts.
Import PyDict.
Implicit Types (d : dict) (k : string) (v : Z).

Lemma get_set_eq k v d : get k (set k v d) = Some v.
Proof.
  induction d as [|[k' v'] d IH]; simpl; repeat case_decide; simpl;
    repeat case_decide; congruence.
Qed.

Lemma get_set_ne k k' v d : k ≠ k' → get k' (set k v d) = get k' d.
Proof.
  intros Hne. induction d as [|[k0 v0] d IH]; simpl; repeat case_decide; simpl;
    repeat case_decide; congruence.
Qed.

Lemma get_set k k' v d :
  get k' (set k v d) = if decide (k = k') then Some v else get k' d.
Proof.
  case_decide as H; [subst; apply get_set_eq | by apply get_set_ne].
Qed.

Lemma get_None_keys k d : get k d = None ↔ k ∉ keys d.
Proof.
  unfold keys. induction d as [|[k' v'] d IH]; simpl.
  - split; [intros _; apply not_elem_of_nil | done].
  - rewrite not_elem_of_cons. case_decide as Hk.
    + split; [done | intros [? _]; congruence].
    + rewrite IH. split; [by split | by intros [_ ?]].
Qed.

Lemma keys_set k v d :
  keys (set k v d) =
  match get k d with Some _ => keys d | None => keys d ++ [k] end.
Proof.
  unfold keys. induction d as [|[k' v'] d IH]; simpl; [done|].
  case_decide; simpl; [by subst|].
  change (k' :: keys (set k v d) =
          match get k d with Some _ => k' :: keys d | None => k' :: keys d ++ [k] end).
  unfold keys. rewrite IH. by destruct (get k d).
Qed.

Lemma keys_set_NoDup k v d : NoDup (keys d) → NoDup (keys (set k v d)).
Proof.
  intros Hnd. rewrite keys_set. destruct (get k d) eqn:Hg; [done|].
  apply NoDup_app. split_and!; [done| |apply NoDup_singleton].
  intros x Hx ->%list_elem_of_singleton. by apply get_None_keys in Hg.
Qed.

Lemma to_map_lookup d k : to_map d !! k = get k d.
Proof.
  unfold to_map. induction d as [|[k' v'] d IH]; simpl; [done|].
  rewrite lookup_insert. by case_decide.
Qed.

Lemma to_map_eq d1 d2 : (∀ k, get k d1 = get k d2) → to_map d1 = to_map d2.
Proof. intros H. apply map_eq; intros k. by rewrite !to_map_lookup. Qed.

End dict_facts.

(** ** The scanner *)

Section scanner.
Import PyDict.

Lemma scan_step_model_of d e :
  scan_step d e =
  match model_of e with
  | Some g => set g (from_option (λ n, n + 1) 1 (get g d)) d
  | None => d
  end.
Proof.
  unfold scan_step, model_of. destruct (contains delimiter e); [|done].
  by destruct (get _ d).
Qed.

Lemma scan_step_get d e g :
  get g (scan_step d e) =
  if decide (model_of e = Some g)
  then Some (default 0 (get g d) + 1)
  else get g d.
Proof.
  rewrite scan_step_model_of. destruct (model_of e) as [m|] eqn:Hm.
  - rewrite get_set. repeat case_decide; simplify_eq; try done.
    by destruct (get g d).
  - by case_decide.
Qed.

Lemma scan_step_ignored d e : ¬ has_substring delimiter e → scan_step d e = d.
Proof. intros H%model_of_None. by rewrite scan_step_model_of, H. Qed.

(** What [n] more members do to a group's entry. *)
Let bump (o : option Z) (n : nat) : option Z :=
  match n with O => o | S _ => Some (default 0 o + Z.of_nat n) end.

Lemma scan_loop_get l d g :
  get g (fold_left scan_step l d) = bump (get g d) (tally g l).
Proof.
  revert d; induction l as [|e l IH]; intros d; [done|].
  simpl fold_left. rewrite IH, scan_step_get. unfold tally.
  rewrite filter_cons. case_decide as Hm; [|done].
  simpl length. destruct (length _) as [|t]; simpl.
  - f_equal; lia.
  - f_equal; lia.
Qed.

Lemma scan_get l g : get g (scan_filenames l) = count_of (tally g l).
Proof.
  unfold scan_filenames. rewrite scan_loop_get. simpl.
  by destruct (tally g l).
Qed.

Lemma scan_step_NoDup d e : NoDup (keys d) → NoDup (keys (scan_step d e)).
Proof.
  intros H. rewrite scan_step_model_of.
  destruct (model_of e); [by apply keys_set_NoDup | done].
Qed.

Lemma scan_keys_NoDup l : NoDup (keys (scan_filenames l)).
Proof.
  unfold scan_filenames. assert (NoDup (keys empty)) as H by constructor.
  revert H. generalize empty. induction l as [|e l IH]; intros d Hd; [done|].
  apply IH. by apply scan_step_NoDup.
Qed.

Lemma tallies_tally g l n : tallies g l n ↔ n = tally g l.
Proof.
  unfold tally. split.
  - induction 1 as [|e l n He _ IH|e l n He _ IH]; [done|..];
      rewrite filter_cons; rewrite <- model_of_Some in He;
      case_decide; try done. simpl. by f_equal.
  - intros ->. induction l as [|e l IH]; [constructor|].
    rewrite filter_cons. case_decide as He; rewrite model_of_Some in He.
    + by apply tallies_hit.
    + by apply tallies_miss.
Qed.

Lemma tally_perm g l1 l2 : l1 ≡ₚ l2 → tally g l1 = tally g l2.
Proof. intros H. unfold tally. by rewrite H. Qed.

End scanner.

(** ** Decimal printing *)

Section decimal.
#[local] Arguments String.append !_ _ / : simpl nomatch.
#[local] Arguments digit_char : simpl never.
#[local] Arguments is_digit : simpl never.
#[local] Arguments digit_value : simpl never.

Lemma digits_lt10 n : n < 10 → digits n = chr (digit_char n).
Proof. intros H. rewrite digits_equation_1. by case_decide; simp digits. Qed.

Lemma digits_ge10 n :
  10 ≤ n → digits n = digits (n `div` 10) +:+ chr (digit_char (n `mod` 10)).
Proof.
  intros H. rewrite digits_equation_1. case_decide; simp digits; [lia | done].
Qed.

(** A number of [k+1] digits prints as [k+1] characters. *)
Lemma length_digits (k : nat) n :
  10 ^ Z.of_nat k ≤ n < 10 * 10 ^ Z.of_nat k → String.length (digits n) = S k.
Proof.
  revert n; induction k as [|k IH]; intros n Hn.
  - rewrite digits_lt10; [done|]. change (10 ^ Z.of_nat 0) with 1 in Hn. lia.
  - rewrite Nat2Z.inj_succ, Z.pow_succ_r in Hn by lia.
    assert (0 < 10 ^ Z.of_nat k) by (apply Z.pow_pos_nonneg; lia).
    rewrite digits_ge10 by lia. rewrite str_length_app, IH; [simpl; lia|].
    split.
    + apply Z.div_le_lower_bound; lia.
    + apply Z.div_lt_upper_bound; lia.
Qed.

Lemma length_digits_0 : String.length (digits 0) = 1%nat.
Proof. by rewrite digits_lt10. Qed.

Lemma length_digits_pos n : (1 <= String.length (digits n))%nat.
Proof.
  destruct (decide (n < 10)) as [H|H].
  - by rewrite digits_lt10.
  - rewrite digits_ge10, str_length_app by lia. simpl. lia.
Qed.

Lemma length_digits_ge (k : nat) n :
  10 ^ Z.of_nat k ≤ n → (S k <= String.length (digits n))%nat.
Proof.
  revert n; induction k as [|k IH]; intros n Hn; [apply length_digits_pos|].
  rewrite Nat2Z.inj_succ, Z.pow_succ_r in Hn by lia.
  assert (0 < 10 ^ Z.of_nat k) by (apply Z.pow_pos_nonneg; lia).
  rewrite digits_ge10, str_length_app by lia. simpl.
  assert (S k <= String.length (digits (n `div` 10)))%nat; [|lia].
  apply IH, Z.div_le_lower_bound; lia.
Qed.

Lemma digit_value_char d : 0 ≤ d < 10 → digit_value (digit_char d) = Some d.
Proof.
  intros Hd. unfold digit_value, digit_char.
  rewrite nat_ascii_embedding by lia.
  case_decide; [f_equal; lia | lia].
Qed.

Lemma int_of_digits_from_app acc s1 s2 :
  int_of_digits_from acc (s1 +:+ s2) =
  int_of_digits_from acc s1 ≫= λ v, int_of_digits_from v s2.
Proof.
  revert acc; induction s1 as [|c s1 IH]; intros acc; simpl; [done|].
  destruct (digit_value c); [apply IH | done].
Qed.

Lemma int_of_digits_from_digits n :
  0 ≤ n → int_of_digits_from 0 (digits n) = Some n.
Proof.
  revert n. refine (Zlt_0_ind _ _). intros n IH Hn.
  destruct (decide (n < 10)) as [H|H].
  - rewrite digits_lt10 by done. cbn [chr int_of_digits_from].
    rewrite digit_value_char by lia. f_equal; lia.
  - rewrite digits_ge10, int_of_digits_from_app by lia.
    rewrite IH by (split; [apply Z.div_pos | apply Z.div_lt]; lia).
    cbn [mbind option_bind chr int_of_digits_from].
    rewrite digit_value_char by (apply Z.mod_pos_bound; lia).
    f_equal. pose proof (Z.div_mod n 10). lia.
Qed.

Lemma int_of_digits_from_zeros k s :
  int_of_digits_from 0 (zeros k +:+ s) = int_of_digits_from 0 s.
Proof. induction k as [|k IH]; [done|]. simpl. apply IH. Qed.

Lemma digits_nonempty n : digits n ≠ EmptyString.
Proof.
  pose proof (length_digits_pos n). destruct (digits n); [simpl in *; lia | done].
Qed.

Lemma all_chars_app P s1 s2 :
  all_chars P (s1 +:+ s2) = all_chars P s1 && all_chars P s2.
Proof. induction s1 as [|c s1 IH]; simpl; [done|]. by rewrite IH, andb_assoc. Qed.

Lemma is_digit_char d : 0 ≤ d < 10 → is_digit (digit_char d) = true.
Proof.
  intros Hd. unfold is_digit. rewrite digit_value_char by done.
  by apply bool_decide_eq_true.
Qed.

Lemma all_digits_digits n : 0 ≤ n → all_chars is_digit (digits n) = true.
Proof.
  revert n. refine (Zlt_0_ind _ _). intros n IH Hn.
  destruct (decide (n < 10)) as [H|H].
  - rewrite digits_lt10 by done. cbn [chr all_chars].
    by rewrite is_digit_char by lia.
  - rewrite digits_ge10, all_chars_app by lia.
    rewrite IH by (split; [apply Z.div_pos | apply Z.div_lt]; lia).
    cbn [chr all_chars andb].
    by rewrite is_digit_char by (apply Z.mod_pos_bound; lia).
Qed.

Lemma all_digits_zeros k : all_chars is_digit (zeros k) = true.
Proof. induction k; [done|]. cbn [zeros all_chars]. by rewrite IHk. Qed.

Lemma length_zeros k : String.length (zeros k) = k.
Proof. induction k; simpl; congruence. Qed.

(** For a non-negative index the format of the source is plain zero
    padding. *)
Lemma format_0d_nonneg width i : 0 ≤ i → format_0d width i = zero_padded width i.
Proof.
  intros Hi. unfold format_0d, zero_padded.
  destruct (Z.ltb_spec i 0); [lia|]. rewrite Z.abs_eq by done.
  simpl. by rewrite Nat.sub_0_r.
Qed.

End decimal.

(** ** The renderer *)

Section renderer.

Lemma join_cons s l : join (s :: l) = s +:+ join l.
Proof. reflexivity. Qed.

Lemma join_app l1 l2 : join (l1 ++ l2) = join l1 +:+ join l2.
Proof.
  induction l1 as [|s l1 IH]; [done|].
  by rewrite <- app_comm_cons, !join_cons, IH, str_app_assoc.
Qed.

(** The accumulating loop builds the concatenation of its lines. *)
Lemma render_loop (line : Z → string) l acc :
  fold_left (λ acc i, acc +:+ line i) l acc = acc +:+ join (line <$> l).
Proof.
  revert acc; induction l as [|i l IH]; intros acc.
  - cbn [fold_left]. rewrite fmap_nil. exact (eq_sym (str_app_nil_r acc)).
  - cbn [fold_left]. by rewrite IH, fmap_cons, join_cons, str_app_assoc.
Qed.

Lemma include_line_spec g i : 0 ≤ i → include_line g i = spec_include_line g i.
Proof.
  intros Hi. unfold include_line, spec_include_line, lit_include, lit_xml,
    lit_attrs, delimiter.
  rewrite format_0d_nonneg by done. by rewrite !str_app_assoc.
Qed.

Lemma range_1 n : range 1 (n + 1) = seqZ 1 n.
Proof. unfold range. f_equal. lia. Qed.

Lemma create_main_string_join g n header footer :
  create_main_string g n header footer =
  header +:+ join (include_line g <$> seqZ 1 n) +:+ footer.
Proof.
  unfold create_main_string. by rewrite render_loop, range_1, str_app_assoc.
Qed.

Lemma create_main_string_spec g n header footer :
  create_main_string g n header footer =
  header +:+ join (spec_include_line g <$> seqZ 1 n) +:+ footer.
Proof.
  rewrite create_main_string_join.
  assert (include_line g <$> seqZ 1 n = spec_include_line g <$> seqZ 1 n) as ->;
    [|done].
  apply list_fmap_ext. intros k i Hi%lookup_seqZ. apply include_line_spec. lia.
Qed.

End renderer.

(** ** The writer *)

Section writer.

Lemma str_take_drop n s : take n s +:+ drop n s = s.
Proof.
  revert s; induction n as [|n IH]; intros [|c s]; try done.
  cbn [take drop]. rewrite str_app_cons. by rewrite IH.
Qed.

Lemma endswith_spec s suffix : endswith s suffix = true ↔ ends_with s suffix.
Proof.
  unfold endswith, ends_with. rewrite bool_decide_eq_true. split.
  - intros H. exists (take (String.length s - String.length suffix) s).
    pose proof (str_take_drop (String.length s - String.length suffix) s) as Htd.
    rewrite H in Htd. by symmetry.
  - intros [p ->]. rewrite str_length_app.
    replace (String.length p + String.length suffix - String.length suffix)%nat
      with (String.length p) by lia.
    apply str_drop_app.
Qed.

Lemma dest_of_sep g d :
  ends_with d backslash → dest_of g d = d +:+ g +:+ ".xml".
Proof.
  intros H%endswith_spec. unfold dest_of, file_name_of.
  by rewrite H, bool_decide_eq_false_2.
Qed.

Lemma dest_of_no_sep g d :
  ¬ ends_with d backslash → dest_of g d = d +:+ backslash +:+ g +:+ ".xml".
Proof.
  intros H. unfold dest_of, file_name_of.
  rewrite bool_decide_eq_true_2, str_app_assoc; [done|].
  rewrite <- endswith_spec in H. by destruct (endswith d backslash).
Qed.

Lemma dest_of_inj d : Inj (=) (=) (λ g, dest_of g d).
Proof.
  intros g1 g2. unfold dest_of, file_name_of. intros H.
  apply String.app_inj in H. by apply str_app_inv_tail in H.
Qed.

(** One call of [create_main_file]. *)
Lemma create_main_file_run g text d s :
  create_main_file g text d s =
  if fs_can_write (world s) (dest_of g d) then
    (Ret 0,
     {| world := write_file (dest_of g d) text (world s);
        trace := trace s ++ [EvOpenWrite (dest_of g d); EvWrite (dest_of g d) text] |})
  else
    (Raise (IOError (fs_strerror (world s) (dest_of g d))),
     {| world := world s;
        trace := trace s ++
          [EvOpenWrite (dest_of g d);
           EvPrint ("Couldn't open or write to file (" +:+
                    fs_strerror (world s) (dest_of g d) +:+ ").")] |}).
Proof.
  unfold create_main_file, try_except, write_text, mbind, M_bind, emit,
    get_world, put_world, raise, print, mret, M_ret; simpl.
  destruct (fs_can_write (world s) (dest_of g d)); simpl;
    first [done | by rewrite <- !(assoc_L (++))].
Qed.

End writer.

(** ** The orchestrator *)

Section orchestrator.

Lemma io_events_app t1 t2 : io_events (t1 ++ t2) = io_events t1 ++ io_events t2.
Proof. apply filter_app. Qed.

Lemma io_events_snoc_print t line :
  io_events (t ++ [EvPrint line]) = io_events t.
Proof. rewrite io_events_app. apply (right_id_L [] (++)). Qed.

Lemma write_groups_status h f d groups w :
  (write_groups h f d groups w).1.1 = 0 ∨ (write_groups h f d groups w).1.1 = 1.
Proof.
  revert w; induction groups as [|[g c] groups IH]; intros w; simpl; [by left|].
  destruct (fs_can_write w (dest_of g d)); [|by right].
  specialize (IH (write_file (dest_of g d) (create_main_string g c h f) w)).
  by destruct (write_groups h f d groups _) as [[st w'] evs].
Qed.

(** Writing never changes which paths can be opened. *)
Lemma write_groups_can_write h f d groups w :
  fs_can_write (write_groups h f d groups w).1.2 = fs_can_write w.
Proof.
  revert w; induction groups as [|[g c] groups IH]; intros w; simpl; [done|].
  destruct (fs_can_write w (dest_of g d)); [|done].
  specialize (IH (write_file (dest_of g d) (create_main_string g c h f) w)).
  by destruct (write_groups h f d groups _) as [[st w'] evs].
Qed.

(** The loop of [main] against its reference behaviour. *)
Lemma write_loop h f d groups s :
  ∃ s',
    for_each groups (λ '(model_name, test_count),
      let main_string := create_main_string model_name test_count h f in
      try_except
        (create_main_file model_name main_string d ;; mret ())
        is_IOError
        (λ _, sys_exit 1)) s =
    (if decide ((write_groups h f d groups (world s)).1.1 = 0)
     then Ret () else Exit 1, s') ∧
    world s' = (write_groups h f d groups (world s)).1.2 ∧
    io_events (trace s') =
    io_events (trace s) ++ (write_groups h f d groups (world s)).2.
Proof.
  revert s; induction groups as [|[g c] groups IH]; intros s.
  - exists s. simpl. by rewrite (right_id_L [] (++)).
  - cbn [for_each write_groups].
    unfold mbind at 1, M_bind at 1, try_except at 1.
    unfold mbind at 1, M_bind at 1. rewrite create_main_file_run.
    destruct (fs_can_write (world s) (dest_of g d)) eqn:Hw.
    + cbn [mret M_ret].
      edestruct IH as (s' & Hrun & Hworld & Hio). rewrite Hrun.
      cbn [world trace] in *.
      destruct (write_groups h f d groups _) as [[st w'] evs].
      exists s'. cbn [fst snd] in *. split_and!; [done..|].
      rewrite Hio, io_events_app. by rewrite <- (assoc_L (++)).
    + cbn [is_IOError sys_exit]. eexists. split_and!; [done..|].
      cbn [trace fst snd]. by rewrite io_events_app.
Qed.

Lemma bind_run {A B} (m : M A) (f : A → M B) s :
  (m ≫= f) s =
  match m s with
  | (Ret a, s') => f a s'
  | (Raise e, s') => (Raise e, s')
  | (Exit c, s') => (Exit c, s')
  end.
Proof. reflexivity. Qed.

Lemma try_except_run {A} (body : M A) class handler s :
  try_except body class handler s =
  match body s with
  | (Raise e, s') => if class e then handler e s' else (Raise e, s')
  | r => r
  end.
Proof. reflexivity. Qed.

Lemma load_header_run path s :
  load_header path s =
  match fs_files (world s) !! path with
  | Some text =>
      (Ret text, {| world := world s; trace := trace s ++ [EvOpenRead path] |})
  | None =>
      (Raise (IOError (fs_strerror (world s) path)),
       {| world := world s;
          trace := trace s ++
            [EvOpenRead path;
             EvPrint ("Couldn't read header file " +:+ newline +:+ "(" +:+
                      fs_strerror (world s) path +:+ ").")] |})
  end.
Proof.
  unfold load_header, try_except, read_text, mbind, M_bind, emit, get_world,
    raise, print, mret, M_ret; simpl.
  destruct (fs_files (world s) !! path); simpl; first [done | by rewrite <- !(assoc_L (++))].
Qed.

Lemma load_footer_run path s :
  load_footer path s =
  match fs_files (world s) !! path with
  | Some text =>
      (Ret text, {| world := world s; trace := trace s ++ [EvOpenRead path] |})
  | None =>
      (Raise (IOError (fs_strerror (world s) path)),
       {| world := world s;
          trace := trace s ++
            [EvOpenRead path;
             EvPrint ("Couldn't read footer file (" +:+
                      fs_strerror (world s) path +:+ ").");
             EvPrint (fs_strerror (world s) path)] |})
  end.
Proof.
  unfold load_footer, try_except, read_text, mbind, M_bind, emit, get_world,
    raise, print, mret, M_ret; simpl.
  destruct (fs_files (world s) !! path); simpl; first [done | by rewrite <- !(assoc_L (++))].
Qed.

Lemma scan_for_models_run path s :
  scan_for_models path s =
  match fs_dirs (world s) !! path with
  | Some names =>
      (Ret (scan_filenames names),
       {| world := world s; trace := trace s ++ [EvListdir path] |})
  | None =>
      (Raise (OSError (fs_strerror (world s) path)),
       {| world := world s;
          trace := trace s ++
            [EvListdir path;
             EvPrint "Error scaning origin directory!";
             EvPrint (fs_strerror (world s) path)] |})
  end.
Proof.
  unfold scan_for_models, try_except, listdir, mbind, M_bind, emit, get_world,
    raise, print, mret, M_ret; simpl.
  destruct (fs_dirs (world s) !! path); simpl; first [done | by rewrite <- !(assoc_L (++))].
Qed.

Ltac run_print :=
  rewrite bind_run; unfold print at 1, emit at 1; cbn [initial world trace].
Ltac run_skip := rewrite bind_run; cbn [mret M_ret].
Ltac run_load H :=
  rewrite bind_run, try_except_run, H; cbn [initial world trace].
Ltac run_abort :=
  cbn [is_IOError is_OSError sys_exit]; eexists; split_and!; reflexivity.
(** A run of [main] against the reference behaviour: exit status, final
    world and I/O operations. *)
Lemma run_main_effect w args :
  ∃ s', run_main w args =
        ((run_effect w (origin_folder args) (destination_folder args)
                     (path_to_header args) (path_to_footer args)).1.1, s') ∧
    world s' =
      (run_effect w (origin_folder args) (destination_folder args)
                  (path_to_header args) (path_to_footer args)).1.2 ∧
    io_events (trace s') =
      (run_effect w (origin_folder args) (destination_folder args)
                  (path_to_header args) (path_to_footer args)).2.
Proof.
  destruct args as [o d hp fp v]. unfold run_main, run_effect, main.
  cbn [origin_folder destination_folder path_to_header path_to_footer verbose].
  rewrite bind_run. unfold get_world at 1. cbn [initial world].
  rewrite bind_run.
  destruct (decide (platform_system w = "Windows")) as [Hp|Hp].
  2:{ rewrite bool_decide_eq_true_2 by done. eexists. split_and!; reflexivity. }
  rewrite bool_decide_eq_false_2 by (by intros ?).
  cbn [mret M_ret].
  destruct v; cbn [when].
  - run_print. run_load load_header_run.
    destruct (fs_files w !! hp) as [header|]; [|run_abort].
    run_print. run_load load_footer_run.
    destruct (fs_files w !! fp) as [footer|]; [|run_abort].
    run_print. run_load scan_for_models_run.
    destruct (fs_dirs w !! o) as [names|]; [|run_abort].
    rewrite bind_run. run_print. rewrite bind_run.
    unfold pprint at 1, emit at 1. cbn [world trace].
    unfold print at 1, emit at 1. cbn [world trace].
    rewrite bind_run. unfold PyDict.items.
    match goal with
    | |- context [for_each _ _ ?s] =>
        destruct (write_loop header footer d (scan_filenames names) s)
          as (s' & Hrun & Hworld & Hio)
    end.
    cbv zeta in Hrun |- *. rewrite Hrun. cbn [world trace] in *.
    pose proof (write_groups_status header footer d (scan_filenames names) w)
      as Hst.
    destruct (write_groups header footer d (scan_filenames names) w)
      as [[st w'] evs].
    cbn [fst snd] in *. destruct Hst as [-> | ->].
    + rewrite decide_True by done. run_print. cbn [sys_exit].
      eexists. split_and!; [reflexivity | done |].
      cbn [trace]. by rewrite io_events_snoc_print, Hio.
    + rewrite decide_False by done.
      eexists. split_and!; [reflexivity | done |]. by rewrite Hio.
  - run_skip. run_load load_header_run.
    destruct (fs_files w !! hp) as [header|]; [|run_abort].
    run_skip. run_load load_footer_run.
    destruct (fs_files w !! fp) as [footer|]; [|run_abort].
    run_skip. run_load scan_for_models_run.
    destruct (fs_dirs w !! o) as [names|]; [|run_abort].
    run_skip.
    rewrite bind_run. unfold PyDict.items.
    match goal with
    | |- context [for_each _ _ ?s] =>
        destruct (write_loop header footer d (scan_filenames names) s)
          as (s' & Hrun & Hworld & Hio)
    end.
    cbv zeta in Hrun |- *. rewrite Hrun. cbn [world trace] in *.
    pose proof (write_groups_status header footer d (scan_filenames names) w)
      as Hst.
    destruct (write_groups header footer d (scan_filenames names) w)
      as [[st w'] evs].
    cbn [fst snd] in *. destruct Hst as [-> | ->].
    + rewrite decide_True by done. run_skip. cbn [sys_exit].
      eexists. split_and!; [reflexivity | done |]. by rewrite Hio.
    + rewrite decide_False by done.
      eexists. split_and!; [reflexivity | done |]. by rewrite Hio.
Qed.

End orchestrator.

(** ** The per-group loop: what is written, and where it stops *)

Section write_groups_facts.
Context (h f d : string).

Lemma write_groups_ok groups w :
  all_writable w d groups →
  ∃ evs,
    write_groups h f d groups w =
    (0,
     {| platform_system := platform_system w;
        fs_files := written_files h f d groups (fs_files w);
        fs_dirs := fs_dirs w;
        fs_can_write := fs_can_write w;
        fs_strerror := fs_strerror w |},
     evs) ∧
    ∀ e, e ∈ evs → ∃ g c, (g, c) ∈ groups ∧
      (e = EvOpenWrite (dest_of g d) ∨
       e = EvWrite (dest_of g d) (create_main_string g c h f)).
Proof.
  revert w; induction groups as [|[g c] groups IH]; intros w Hall.
  - exists []. split; [by destruct w | by intros e ?%elem_of_nil].
  - cbn [write_groups written_files fold_left].
    rewrite (Hall g c) by left.
    destruct (IH (write_file (dest_of g d) (create_main_string g c h f) w))
      as (evs & -> & Hevs).
    { intros g' c' Hin. cbn [write_file fs_can_write]. apply (Hall g' c').
      by right. }
    eexists. split; [reflexivity|].
    intros e [->|[->|Hin]%elem_of_cons]%elem_of_cons.
    + exists g, c. split; [left | by left].
    + exists g, c. split; [left | by right].
    + destruct (Hevs e Hin) as (g' & c' & ? & ?). exists g', c'. split; [by right|done].
Qed.

Lemma write_groups_stop pre g c post w :
  all_writable w d pre →
  fs_can_write w (dest_of g d) = false →
  ∃ evs,
    write_groups h f d (pre ++ (g, c) :: post) w =
    (1,
     {| platform_system := platform_system w;
        fs_files := written_files h f d pre (fs_files w);
        fs_dirs := fs_dirs w;
        fs_can_write := fs_can_write w;
        fs_strerror := fs_strerror w |},
     evs ++ [EvOpenWrite (dest_of g d)]) ∧
    ∀ e, e ∈ evs → ∃ g' c', (g', c') ∈ pre ∧
      (e = EvOpenWrite (dest_of g' d) ∨
       e = EvWrite (dest_of g' d) (create_main_string g' c' h f)).
Proof.
  revert w; induction pre as [|[g0 c0] pre IH]; intros w Hall Hg.
  - exists []. cbn [app write_groups written_files fold_left]. rewrite Hg.
    split; [by destruct w | by intros e ?%elem_of_nil].
  - cbn [app write_groups written_files fold_left].
    rewrite (Hall g0 c0) by left.
    destruct (IH (write_file (dest_of g0 d) (create_main_string g0 c0 h f) w))
      as (evs & -> & Hevs); [|done|].
    { intros g' c' Hin. cbn [write_file fs_can_write]. apply (Hall g' c').
      by right. }
    eexists (_ :: _ :: evs). split; [reflexivity|].
    intros e [->|[->|Hin]%elem_of_cons]%elem_of_cons.
    + exists g0, c0. split; [left | by left].
    + exists g0, c0. split; [left | by right].
    + destruct (Hevs e Hin) as (g' & c' & ? & ?). exists g', c'. split; [by right|done].
Qed.

(** The loop succeeds exactly when every destination is writable. *)
Lemma write_groups_status_0 groups w :
  (write_groups h f d groups w).1.1 = 0 ↔ all_writable w d groups.
Proof.
  split.
  - revert w; induction groups as [|[g c] groups IH]; intros w Hst g' c' Hin.
    + by apply elem_of_nil in Hin.
    + cbn [write_groups] in Hst.
      destruct (fs_can_write w (dest_of g d)) eqn:Hw; [|done].
      apply elem_of_cons in Hin as [[= -> ->]|Hin]; [done|].
      specialize (IH (write_file (dest_of g d) (create_main_string g c h f) w)).
      destruct (write_groups h f d groups _) as [[st w'] evs].
      by apply (IH Hst g' c').
  - intros Hall. by destruct (write_groups_ok groups w Hall) as (evs & -> & _).
Qed.

Lemma written_files_cons g c groups files :
  written_files h f d ((g, c) :: groups) files =
  written_files h f d groups
    (<[dest_of g d := create_main_string g c h f]> files).
Proof. reflexivity. Qed.

Lemma written_files_other groups files path :
  (∀ g c, (g, c) ∈ groups → dest_of g d ≠ path) →
  written_files h f d groups files !! path = files !! path.
Proof.
  revert files; induction groups as [|[g c] groups IH]; intros files Hne; [done|].
  rewrite written_files_cons.
  rewrite IH by (intros g' c' ?; apply (Hne g' c'); by right).
  apply lookup_insert_ne, (Hne g c). left.
Qed.

(** After the loop each group's file holds that group's text. *)
Lemma written_files_lookup groups files g c :
  NoDup groups.*1 → (g, c) ∈ groups →
  written_files h f d groups files !! dest_of g d =
  Some (create_main_string g c h f).
Proof.
  revert files; induction groups as [|[g0 c0] groups IH]; intros files Hnd Hin.
  - by apply elem_of_nil in Hin.
  - rewrite written_files_cons.
    apply NoDup_cons in Hnd as [Hnotin Hnd].
    apply elem_of_cons in Hin as [[= -> ->]|Hin]; [|by apply IH].
    rewrite written_files_other; [apply lookup_insert_eq|].
    intros g' c' Hin' Heq. apply (dest_of_inj d) in Heq as ->.
    apply Hnotin. apply list_elem_of_fmap. by exists (g0, c').
Qed.

End write_groups_facts.

(** * The properties of the specification *)

(** ** Rendering *)

(** C1. For a count [n >= 1], [create_main_string g n header footer] is
    exactly the header, then for each [i] from 1 to [n] inclusive the
    include line of [g] and [i] (zero-padded to three digits, ended by a
    newline), then the footer; the indices are exactly 1..n, and for
    [n = 1] there is one line, with index 001. *)
Theorem create_main_string_correct g n header footer :
  1 ≤ n →
  create_main_string g n header footer =
    header +:+ join (spec_include_line g <$> seqZ 1 n) +:+ footer
  ∧ length (seqZ 1 n) = Z.to_nat n
  ∧ (∀ i, i ∈ seqZ 1 n ↔ 1 ≤ i ≤ n)
  ∧ create_main_string g 1 header footer =
      header +:+
      ("<INCLUDE FileName=" +:+ dquote +:+ g +:+ ".Test.001.xml" +:+ dquote +:+
       " NameSpace=" +:+ dquote +:+ dquote +:+ " TAB=" +:+ dquote +:+ "10" +:+
       dquote +:+ " LineComment=" +:+ dquote +:+ "0" +:+ dquote +:+ "/>" +:+
       newline) +:+
      footer.
Proof.
  intros Hn. split_and!.
  - apply create_main_string_spec.
  - apply length_seqZ.
  - intros i. rewrite elem_of_seqZ. lia.
  - rewrite create_main_string_spec.
    change (seqZ 1 1) with [1]. rewrite list_fmap_singleton.
    unfold join. cbn [foldr]. rewrite str_app_nil_r.
    unfold spec_include_line.
    by replace (zero_padded 3 1) with "001"%string by (by vm_compute).
Qed.

Lemma create_main_string_correct_witness :
  1 ≤ 3 ∧
  (create_main_string "A" 3 "<H>" "<F>" =
     "<H>" +:+ join (spec_include_line "A" <$> seqZ 1 3) +:+ "<F>"
   ∧ length (seqZ 1 3) = Z.to_nat 3
   ∧ (∀ i, i ∈ seqZ 1 3 ↔ 1 ≤ i ≤ 3)
   ∧ create_main_string "A" 1 "<H>" "<F>" =
       "<H>" +:+
       ("<INCLUDE FileName=" +:+ dquote +:+ "A" +:+ ".Test.001.xml" +:+ dquote +:+
        " NameSpace=" +:+ dquote +:+ dquote +:+ " TAB=" +:+ dquote +:+ "10" +:+
        dquote +:+ " LineComment=" +:+ dquote +:+ "0" +:+ dquote +:+ "/>" +:+
        newline) +:+
       "<F>").
Proof.
  split; [lia | apply (create_main_string_correct "A" 3 "<H>" "<F>"); lia].
Defined.

(** C8. With a count below 1 the loop body never runs: the result is the
    header followed by the footer, and nothing fails. *)
Theorem create_main_string_no_tests g n header footer :
  n < 1 → create_main_string g n header footer = header +:+ footer.
Proof.
  intros Hn. rewrite create_main_string_join, seqZ_nil by lia. reflexivity.
Qed.

Lemma create_main_string_no_tests_witness :
  0 < 1 ∧ create_main_string "A" 0 "<H>" "<F>" = "<H>" +:+ "<F>".
Proof.
  split; [lia | apply (create_main_string_no_tests "A" 0 "<H>" "<F>"); lia].
Defined.

(** C4. For an index [i >= 1] the rendered index is the decimal
    representation of [i] left-padded with zeros to a minimum width of 3
    and never truncated: it is made of digits only and reads back as [i],
    it has exactly 3 characters up to 999, and from 1000 on it is the
    plain decimal representation (["1000"] for 1000). It is what the
    include line carries. *)
Theorem include_index_padding i :
  1 ≤ i →
  format_0d 3 i = zero_padded 3 i
  ∧ all_chars is_digit (format_0d 3 i) = true
  ∧ int_of_digits (format_0d 3 i) = Some i
  ∧ (3 <= String.length (format_0d 3 i))%nat
  ∧ (i ≤ 999 → String.length (format_0d 3 i) = 3%nat)
  ∧ (1000 ≤ i → format_0d 3 i = digits i)
  ∧ format_0d 3 1000 = "1000"%string
  ∧ ∀ g, include_line g i = spec_include_line g i.
Proof.
  intros Hi.
  assert (format_0d 3 i = zero_padded 3 i) as Hfmt by (apply format_0d_nonneg; lia).
  rewrite Hfmt. unfold zero_padded.
  assert (String.length (digits i) = 1%nat ∧ i < 10 ∨
          String.length (digits i) = 2%nat ∧ 10 ≤ i < 100 ∨
          String.length (digits i) = 3%nat ∧ 100 ≤ i < 1000 ∨
          (4 <= String.length (digits i))%nat ∧ 1000 ≤ i) as Hlen.
  { destruct (decide (i < 10)); [left; split; [|done]; apply (length_digits 0); simpl; lia|].
    destruct (decide (i < 100)); [right; left; split; [|lia]; apply (length_digits 1); simpl; lia|].
    destruct (decide (i < 1000)); [right; right; left; split; [|lia]; apply (length_digits 2); simpl; lia|].
    right; right; right. split; [|lia]. apply (length_digits_ge 3). simpl. lia. }
  split_and!.
  - done.
  - by rewrite all_chars_app, all_digits_zeros, all_digits_digits by lia.
  - pose proof (digits_nonempty i) as Hne.
    assert (int_of_digits_from 0 (zeros (3 - String.length (digits i)) +:+ digits i)
            = Some i) as Hval
      by (rewrite int_of_digits_from_zeros; apply int_of_digits_from_digits; lia).
    unfold int_of_digits.
    destruct (zeros (3 - String.length (digits i)) +:+ digits i) eqn:Heq; [|done].
    destruct (zeros (3 - String.length (digits i))); [|done].
    by destruct (digits i).
  - rewrite str_length_app, length_zeros. lia.
  - intros Hle. rewrite str_length_app, length_zeros. lia.
  - intros Hge. destruct Hlen as [[? ?]|[[? ?]|[[? ?]|[Hl _]]]]; try lia.
    by replace (3 - String.length (digits i))%nat with 0%nat by lia.
  - by vm_compute.
  - intros g. apply include_line_spec. lia.
Qed.

Lemma include_index_padding_witness :
  1 ≤ 7 ∧
  (format_0d 3 7 = zero_padded 3 7
   ∧ all_chars is_digit (format_0d 3 7) = true
   ∧ int_of_digits (format_0d 3 7) = Some 7
   ∧ (3 <= String.length (format_0d 3 7))%nat
   ∧ (7 ≤ 999 → String.length (format_0d 3 7) = 3%nat)
   ∧ (1000 ≤ 7 → format_0d 3 7 = digits 7)
   ∧ format_0d 3 1000 = "1000"%string
   ∧ ∀ g, include_line g 7 = spec_include_line g 7).
Proof. split; [lia | apply (include_index_padding 7); lia]. Defined.

(** ** Scanning *)

(** C2. Scanning groups exactly the entries that contain [".Test."]: the
    count of a group [g] is the number of entries that have [g] before
    their first [".Test."] (no entry for a group without members), an
    entry without [".Test."] changes no count, and the three names
    [A.Test.001.xml], [A.Test.002.xml], [B.Test.001.xml], in whatever
    order the directory lists them, give the table [{A: 2, B: 1}]. *)
Theorem scan_groups_by_delimiter :
  (∀ listing g, ∃ n,
      tallies g listing n ∧
      PyDict.get g (scan_filenames listing) = count_of n)
  ∧ (∀ l1 e l2, ¬ has_substring delimiter e →
       scan_filenames (l1 ++ e :: l2) = scan_filenames (l1 ++ l2))
  ∧ (∀ listing,
       listing ≡ₚ ["A.Test.001.xml"; "A.Test.002.xml"; "B.Test.001.xml"]%string →
       PyDict.to_map (scan_filenames listing) = {[ "A"%string := 2; "B"%string := 1 ]}).
Proof.
  split_and!.
  - intros listing g. exists (tally g listing). split.
    + by apply tallies_tally.
    + apply scan_get.
  - intros l1 e l2 He. unfold scan_filenames.
    rewrite !fold_left_app. cbn [fold_left]. by rewrite scan_step_ignored.
  - intros listing Hperm.
    transitivity (PyDict.to_map (scan_filenames
      ["A.Test.001.xml"; "A.Test.002.xml"; "B.Test.001.xml"]%string)); [|by vm_compute].
    apply to_map_eq. intros k. rewrite !scan_get. f_equal. by apply tally_perm.
Qed.

Lemma scan_groups_by_delimiter_witness :
  ¬ has_substring delimiter "notes.txt"
  ∧ scan_filenames (["A.Test.001.xml"%string] ++
                    "notes.txt"%string :: ["A.Test.002.xml"%string])
    = scan_filenames (["A.Test.001.xml"%string] ++ ["A.Test.002.xml"%string])
  ∧ ["B.Test.001.xml"; "A.Test.001.xml"; "A.Test.002.xml"]%string
      ≡ₚ ["A.Test.001.xml"; "A.Test.002.xml"; "B.Test.001.xml"]%string
  ∧ PyDict.to_map (scan_filenames
      ["B.Test.001.xml"; "A.Test.001.xml"; "A.Test.002.xml"]%string)
    = {[ "A"%string := 2; "B"%string := 1 ]}.
Proof.
  assert (¬ has_substring delimiter "notes.txt") as Hno
    by (apply model_of_None; reflexivity).
  assert (["B.Test.001.xml"; "A.Test.001.xml"; "A.Test.002.xml"]%string
          ≡ₚ ["A.Test.001.xml"; "A.Test.002.xml"; "B.Test.001.xml"]%string) as Hperm
    by (etrans; [apply perm_swap | apply perm_skip, perm_swap]).
  destruct scan_groups_by_delimiter as (_ & H2 & H3). split_and!.
  - exact Hno.
  - exact (H2 ["A.Test.001.xml"%string] "notes.txt"%string
              ["A.Test.002.xml"%string] Hno).
  - exact Hperm.
  - exact (H3 _ Hperm).
Defined.

(** C9. The table the scanner builds, as a mapping from group name to
    count, does not depend on the order in which the entries are listed. *)
Theorem scan_order_independent l1 l2 :
  l1 ≡ₚ l2 →
  PyDict.to_map (scan_filenames l1) = PyDict.to_map (scan_filenames l2)
  ∧ ∀ g, PyDict.get g (scan_filenames l1) = PyDict.get g (scan_filenames l2).
Proof.
  intros Hperm.
  assert (∀ g, PyDict.get g (scan_filenames l1) = PyDict.get g (scan_filenames l2))
    as Hget by (intros g; rewrite !scan_get; f_equal; by apply tally_perm).
  split; [by apply to_map_eq | done].
Qed.

Lemma scan_order_independent_witness :
  ["B.Test.001.xml"; "A.Test.001.xml"]%string ≡ₚ ["A.Test.001.xml"; "B.Test.001.xml"]%string
  ∧ (PyDict.to_map (scan_filenames ["B.Test.001.xml"; "A.Test.001.xml"]%string)
     = PyDict.to_map (scan_filenames ["A.Test.001.xml"; "B.Test.001.xml"]%string)
     ∧ ∀ g, PyDict.get g (scan_filenames ["B.Test.001.xml"; "A.Test.001.xml"]%string)
            = PyDict.get g (scan_filenames ["A.Test.001.xml"; "B.Test.001.xml"]%string)).
Proof.
  assert (["B.Test.001.xml"; "A.Test.001.xml"]%string
          ≡ₚ ["A.Test.001.xml"; "B.Test.001.xml"]%string) as Hperm
    by apply perm_swap.
  split; [exact Hperm | exact (scan_order_independent _ _ Hperm)].
Defined.

(** ** Writing *)

(** C5. When the destination can be opened, [create_main_file g t d]
    returns 0 and leaves the text [t] in the file [g.xml] under [d]: the
    path is [d], one backslash unless [d] already ends with one, and the
    file name. Whatever the file held before is replaced, so after two
    writes it holds the second text, and writing the same text again
    changes nothing. *)
Theorem create_main_file_overwrites g t d s :
  fs_can_write (world s) (dest_of g d) = true →
  (ends_with d backslash → dest_of g d = d +:+ g +:+ ".xml")
  ∧ (¬ ends_with d backslash → dest_of g d = d +:+ backslash +:+ g +:+ ".xml")
  ∧ (create_main_file g t d s).1 = Ret 0
  ∧ fs_files (world (create_main_file g t d s).2)
    = <[dest_of g d := t]> (fs_files (world s))
  ∧ (∀ t0, (create_main_file g t d (create_main_file g t0 d s).2).1 = Ret 0
           ∧ fs_files (world (create_main_file g t d (create_main_file g t0 d s).2).2)
               !! dest_of g d = Some t)
  ∧ world (create_main_file g t d (create_main_file g t d s).2).2
    = world (create_main_file g t d s).2.
Proof.
  intros Hw.
  assert (∀ t1 s1, fs_can_write (world s1) (dest_of g d) = true →
            create_main_file g t1 d s1 =
            (Ret 0,
             {| world := write_file (dest_of g d) t1 (world s1);
                trace := trace s1 ++
                  [EvOpenWrite (dest_of g d); EvWrite (dest_of g d) t1] |}))
    as Hrun by (intros t1 s1 H1; by rewrite create_main_file_run, H1).
  split_and!.
  - apply dest_of_sep.
  - apply dest_of_no_sep.
  - by rewrite Hrun.
  - by rewrite Hrun.
  - intros t0. rewrite (Hrun t0 s Hw). cbn [snd].
    rewrite Hrun by done. cbn [fst snd world write_file fs_files].
    split; [done | apply lookup_insert_eq].
  - rewrite (Hrun t s Hw). cbn [snd]. rewrite Hrun by done.
    cbn [snd world]. unfold write_file. cbn [fs_files platform_system fs_dirs
      fs_can_write fs_strerror]. f_equal. apply insert_insert_eq.
Qed.

Lemma create_main_file_overwrites_witness :
  fs_can_write (world (initial sample_world)) (dest_of "X" "out") = true
  ∧ (create_main_file "X" "new" "out" (initial sample_world)).1 = Ret 0
  ∧ fs_files (world (create_main_file "X" "new" "out" (initial sample_world)).2)
    = <[dest_of "X" "out" := "new"%string]> (fs_files (world (initial sample_world))).
Proof.
  split; [reflexivity|].
  destruct (create_main_file_overwrites "X" "new" "out" (initial sample_world) eq_refl)
    as (_ & _ & H1 & H2 & _).
  exact (conj H1 H2).
Defined.

(** ** The run *)

(** C7. On a host whose platform name is not the one the path logic
    assumes, the program prints its refusal and exits with status 1; that
    print is all it does: no file is opened, no directory is listed and
    nothing is written. *)
Theorem main_refuses_other_platforms w args :
  platform_system w ≠ "Windows"%string →
  exit_status w args = 1
  ∧ final_trace w args =
      [EvPrint ("This script only runs properly on Windows." +:+ newline)]
  ∧ world (run_main w args).2 = w
  ∧ final_files w args = fs_files w
  ∧ Forall (λ e, is_file_read e = false ∧ is_file_write e = false)
           (final_trace w args).
Proof.
  intros Hp.
  assert (run_main w args =
          (1, {| world := w;
                 trace := [EvPrint ("This script only runs properly on Windows."
                                    +:+ newline)] |})) as Hrun.
  { unfold run_main, main. rewrite bind_run. unfold get_world at 1.
    cbn [initial world]. rewrite bind_run.
    by rewrite bool_decide_eq_true_2 by done. }
  unfold exit_status, final_trace, final_files. rewrite Hrun. cbn [fst snd world trace].
  split_and!; try done. by repeat constructor.
Qed.

Lemma main_refuses_other_platforms_witness :
  platform_system other_platform_world ≠ "Windows"%string
  ∧ exit_status other_platform_world sample_args = 1
  ∧ final_files other_platform_world sample_args = fs_files other_platform_world.
Proof.
  assert (platform_system other_platform_world ≠ "Windows"%string) as Hp by done.
  destruct (main_refuses_other_platforms other_platform_world sample_args Hp)
    as (H1 & _ & _ & H2 & _).
  exact (conj Hp (conj H1 H2)).
Defined.

(** C6. The verbose flag changes only what is printed: with the same
    host, templates and directories, two runs that differ in the flag end
    with the same exit status, the same files (the same world), and the
    same I/O operations in the same order. *)
Theorem verbose_only_changes_output w args v1 v2 :
  exit_status w (with_verbose v1 args) = exit_status w (with_verbose v2 args)
  ∧ final_files w (with_verbose v1 args) = final_files w (with_verbose v2 args)
  ∧ world (run_main w (with_verbose v1 args)).2
    = world (run_main w (with_verbose v2 args)).2
  ∧ io_events (final_trace w (with_verbose v1 args))
    = io_events (final_trace w (with_verbose v2 args)).
Proof.
  destruct (run_main_effect w (with_verbose v1 args)) as (s1 & Hr1 & Hw1 & Ht1).
  destruct (run_main_effect w (with_verbose v2 args)) as (s2 & Hr2 & Hw2 & Ht2).
  unfold exit_status, final_files, final_trace. rewrite Hr1, Hr2.
  cbn [fst snd]. rewrite Hw1, Hw2, Ht1, Ht2. done.
Qed.

Section run_facts.

Lemma elem_of_keys g (d : PyDict.dict) : g ∈ PyDict.keys d ↔ ∃ c, (g, c) ∈ d.
Proof.
  unfold PyDict.keys. rewrite list_elem_of_fmap. split.
  - intros ([g' c] & -> & Hin). by exists c.
  - intros [c Hin]. by exists (g, c).
Qed.

Lemma all_writable_keys w d (groups : PyDict.dict) :
  all_writable w d groups ↔
  ∀ g, g ∈ PyDict.keys groups → fs_can_write w (dest_of g d) = true.
Proof.
  unfold all_writable. split.
  - intros H g [c Hin]%elem_of_keys. by apply (H g c).
  - intros H g c Hin. apply H, elem_of_keys. by exists c.
Qed.

(** A file-write event of a trace is one of its I/O events. *)
Lemma no_file_write t :
  (∀ e, e ∈ io_events t → is_file_write e = false) →
  Forall (λ e, is_file_write e = false) t.
Proof.
  intros H. apply Forall_forall. intros e Hin.
  destruct (is_output e) eqn:Hout; [by destruct e|].
  apply H. unfold io_events. by apply list_elem_of_filter.
Qed.

Lemma open_write_io t path :
  EvOpenWrite path ∈ t ↔ EvOpenWrite path ∈ io_events t.
Proof.
  unfold io_events. rewrite list_elem_of_filter.
  split; [by intros ? | by intros [_ ?]].
Qed.

End run_facts.

(** C3. The exit status is 0 or 1, and it is 0 exactly when every step
    succeeds. When a template cannot be loaded or the source directory
    cannot be listed, the files are left as they were and no file is ever
    opened for writing. When the write of a group fails after the groups
    before it were written, the run ends with status 1 right there: the
    files are those left by the earlier writes, each earlier group's file
    still holds its text, and no later group's file is touched. *)
Theorem main_exit_status w args :
  (exit_status w args = 0 ∨ exit_status w args = 1)
  ∧ (exit_status w args = 0 ↔ all_steps_succeed w args)
  ∧ (load_or_scan_fails w args →
       exit_status w args = 1
       ∧ final_files w args = fs_files w
       ∧ Forall (λ e, is_file_write e = false) (final_trace w args))
  ∧ (∀ header footer names pre g c post,
       platform_system w = "Windows"%string →
       fs_files w !! path_to_header args = Some header →
       fs_files w !! path_to_footer args = Some footer →
       fs_dirs w !! origin_folder args = Some names →
       PyDict.items (scan_filenames names) = pre ++ (g, c) :: post →
       all_writable w (destination_folder args) pre →
       fs_can_write w (dest_of g (destination_folder args)) = false →
       exit_status w args = 1
       ∧ final_files w args =
           written_files header footer (destination_folder args) pre (fs_files w)
       ∧ (∀ g' c', (g', c') ∈ pre →
            final_files w args !! dest_of g' (destination_folder args)
            = Some (create_main_string g' c' header footer))
       ∧ (∀ g' c', (g', c') ∈ post →
            EvOpenWrite (dest_of g' (destination_folder args)) ∉ final_trace w args)).
Proof.
  destruct (run_main_effect w args) as (s' & Hrun & Hworld & Hio).
  unfold exit_status, final_files, final_trace. rewrite Hrun. cbn [fst snd].
  rewrite Hworld. clear Hrun Hworld.
  unfold run_effect in *. unfold all_steps_succeed, load_or_scan_fails.
  set (d := destination_folder args) in *.
  destruct (decide (platform_system w = "Windows")) as [Hp|Hp]; cbn [fst snd] in *.
  2:{ split_and!.
      - by right.
      - split; [done | by intros [? _]].
      - intros _. split_and!; [done..|].
        apply no_file_write. rewrite Hio. intros e He;
          repeat (apply elem_of_cons in He as [->|He]; [done|]);
          by apply elem_of_nil in He.
      - by intros. }
  destruct (fs_files w !! path_to_header args) as [header|] eqn:Hh; cbn [fst snd] in *.
  2:{ split_and!.
      - by right.
      - split; [done | by intros (_ & [? ?] & _)].
      - intros _. split_and!; [done..|].
        apply no_file_write. rewrite Hio. intros e He;
          repeat (apply elem_of_cons in He as [->|He]; [done|]);
          by apply elem_of_nil in He.
      - by intros. }
  destruct (fs_files w !! path_to_footer args) as [footer|] eqn:Hf; cbn [fst snd] in *.
  2:{ split_and!.
      - by right.
      - split; [done | by intros (_ & _ & [? ?] & _)].
      - intros _. split_and!; [done..|].
        apply no_file_write. rewrite Hio.
        intros e He;
          repeat (apply elem_of_cons in He as [->|He]; [done|]);
          by apply elem_of_nil in He.
      - by intros. }
  destruct (fs_dirs w !! origin_folder args) as [names|] eqn:Hd; cbn [fst snd] in *.
  2:{ split_and!.
      - by right.
      - split; [done | by intros (_ & _ & _ & ? & ? & _)].
      - intros _. split_and!; [done..|].
        apply no_file_write. rewrite Hio.
        intros e He;
          repeat (apply elem_of_cons in He as [->|He]; [done|]);
          by apply elem_of_nil in He.
      - by intros. }
  pose proof (write_groups_status header footer d (scan_filenames names) w) as Hst.
  pose proof (write_groups_status_0 header footer d (scan_filenames names) w) as Hst0.
  split_and!.
  - by destruct (write_groups header footer d (scan_filenames names) w) as [[st w'] evs].
  - destruct (write_groups header footer d (scan_filenames names) w) as [[st w'] evs].
    cbn [fst snd] in *. rewrite Hst0, all_writable_keys. split.
    + intros Hall. split_and!; [done | by eexists | by eexists |]. by exists names.
    + intros (_ & _ & _ & names' & [= <-] & Hall). done.
  - by intros [?|[?|?]].
  - intros header' footer' names' pre g c post _ [= <-] [= <-] [= <-] Hitems Hpre Hg.
    unfold PyDict.items in Hitems.
    pose proof (scan_keys_NoDup names) as Hnd. unfold PyDict.keys in Hnd.
    rewrite Hitems in Hnd, Hio |- *.
    destruct (write_groups_stop header footer d pre g c post w Hpre Hg)
      as (evs & Hwg & Hevs).
    rewrite Hwg in Hio |- *. cbn [fst snd fs_files] in *.
    rewrite fmap_app, fmap_cons in Hnd. cbn [fst] in Hnd.
    apply NoDup_app in Hnd as (Hnd_pre & Hdisj & Hnd_post).
    apply NoDup_cons in Hnd_post as [Hg_post Hnd_post].
    split_and!; [done..| |].
    + intros g' c' Hin. by apply written_files_lookup.
    + intros g' c' Hin Hev. apply open_write_io in Hev. rewrite Hio in Hev.
      assert (g' ∈ post.*1) as Hg'
        by (apply list_elem_of_fmap; by exists (g', c')).
      apply elem_of_cons in Hev as [?|Hev]; [done|].
      apply elem_of_cons in Hev as [?|Hev]; [done|].
      apply elem_of_cons in Hev as [?|Hev]; [done|].
      apply elem_of_app in Hev as [Hev|Hev].
      * destruct (Hevs _ Hev) as (g0 & c0 & Hin0 & [[= Heq]|?]); [|done].
        apply (dest_of_inj d) in Heq as ->.
        apply (Hdisj g0); [apply list_elem_of_fmap; by exists (g0, c0) | by right].
      * apply list_elem_of_singleton in Hev as [= Heq].
        apply (dest_of_inj d) in Heq as ->. done.
Qed.

Lemma main_exit_status_witness :
  (platform_system locked_world = "Windows"%string
   ∧ fs_files locked_world !! path_to_header sample_args = Some ("<ROOT>" +:+ newline)
   ∧ fs_files locked_world !! path_to_footer sample_args = Some ("</ROOT>" +:+ newline)
   ∧ fs_dirs locked_world !! origin_folder sample_args
     = Some ["X.Test.001.xml"; "X.Test.002.xml"; "notes.txt"; "Y.Test.001.xml"]%string
   ∧ PyDict.items (scan_filenames
       ["X.Test.001.xml"; "X.Test.002.xml"; "notes.txt"; "Y.Test.001.xml"]%string)
     = [("X"%string, 2)] ++ ("Y"%string, 1) :: []
   ∧ all_writable locked_world (destination_folder sample_args) [("X"%string, 2)]
   ∧ fs_can_write locked_world (dest_of "Y" (destination_folder sample_args)) = false)
  ∧ exit_status locked_world sample_args = 1
  ∧ final_files locked_world sample_args =
      written_files ("<ROOT>" +:+ newline) ("</ROOT>" +:+ newline)
        (destination_folder sample_args) [("X"%string, 2)] (fs_files locked_world).
Proof.
  assert (all_writable locked_world (destination_folder sample_args)
            [("X"%string, 2)]) as Hall.
  { intros g c Hin. apply list_elem_of_singleton in Hin. by injection Hin as -> ->. }
  destruct (main_exit_status locked_world sample_args) as (_ & _ & _ & Hstop).
  destruct (Hstop ("<ROOT>" +:+ newline) ("</ROOT>" +:+ newline)
              ["X.Test.001.xml"; "X.Test.002.xml"; "notes.txt"; "Y.Test.001.xml"]%string
              [("X"%string, 2)] "Y"%string 1 []
              eq_refl eq_refl eq_refl eq_refl eq_refl Hall eq_refl)
    as (H1 & H2 & _).
  split_and!; [reflexivity.. | exact Hall | reflexivity | exact H1 | exact H2].
Defined.

Section success.

Lemma get_Some_elem k v (d : PyDict.dict) : PyDict.get k d = Some v → (k, v) ∈ d.
Proof.
  induction d as [|[k' v'] d IH]; cbn [PyDict.get]; [done|].
  case_decide as Hk.
  - intros [= ->]. subst. left.
  - intros H. right. by apply IH.
Qed.

Lemma elem_get_Some k v (d : PyDict.dict) :
  NoDup (PyDict.keys d) → (k, v) ∈ d → PyDict.get k d = Some v.
Proof.
  unfold PyDict.keys. induction d as [|[k' v'] d IH]; intros Hnd Hin.
  - by apply elem_of_nil in Hin.
  - rewrite fmap_cons in Hnd. cbn [fst] in Hnd.
    apply NoDup_cons in Hnd as [Hk Hnd]. cbn [PyDict.get].
    apply elem_of_cons in Hin as [[= -> ->]|Hin].
    + by rewrite decide_True.
    + rewrite decide_False; [by apply IH|]. intros ->.
      apply Hk, list_elem_of_fmap. by exists (k, v).
Qed.

Lemma tally_pos g e l : e ∈ l → model_of e = Some g → (1 <= tally g l)%nat.
Proof.
  intros Hin Hm. unfold tally.
  assert (e ∈ filter (λ e, model_of e = Some g) l) as Hf
    by (by apply list_elem_of_filter).
  destruct (filter _ l); [by apply elem_of_nil in Hf | simpl; lia].
Qed.

(** A run in which every step succeeds. *)
Lemma run_main_success w args header footer names :
  platform_system w = "Windows"%string →
  fs_files w !! path_to_header args = Some header →
  fs_files w !! path_to_footer args = Some footer →
  fs_dirs w !! origin_folder args = Some names →
  all_writable w (destination_folder args) (scan_filenames names) →
  exit_status w args = 0
  ∧ final_files w args =
      written_files header footer (destination_folder args)
        (scan_filenames names) (fs_files w)
  ∧ ∃ evs, io_events (final_trace w args) =
      [EvOpenRead (path_to_header args); EvOpenRead (path_to_footer args);
       EvListdir (origin_folder args)] ++ evs
      ∧ ∀ e, e ∈ evs → ∃ g c, (g, c) ∈ scan_filenames names ∧
          (e = EvOpenWrite (dest_of g (destination_folder args)) ∨
           e = EvWrite (dest_of g (destination_folder args))
                       (create_main_string g c header footer)).
Proof.
  intros Hp Hh Hf Hd Hall.
  destruct (run_main_effect w args) as (s' & Hrun & Hworld & Hio).
  unfold exit_status, final_files, final_trace. rewrite Hrun. cbn [fst snd].
  rewrite Hworld, Hio. clear Hrun Hworld Hio. unfold run_effect.
  rewrite decide_True, Hh, Hf, Hd by done.
  destruct (write_groups_ok header footer (destination_folder args)
              (scan_filenames names) w Hall) as (evs & -> & Hevs).
  cbn [fst snd fs_files]. split_and!; [done..|]. by exists evs.
Qed.

End success.

(** C10. An entry whose name begins with [".Test."] belongs to the group
    with the empty name. A run over a directory that lists one counts it
    there and, when every step succeeds, writes the aggregator of that
    group to the file named [".xml"] in the destination directory; its
    include lines refer to [".Test.<index>.xml"]. *)
Theorem empty_group_name w args header footer names e rest :
  platform_system w = "Windows"%string →
  fs_files w !! path_to_header args = Some header →
  fs_files w !! path_to_footer args = Some footer →
  fs_dirs w !! origin_folder args = Some names →
  all_writable w (destination_folder args) (scan_filenames names) →
  e ∈ names → e = ".Test." +:+ rest →
  model_of e = Some EmptyString
  ∧ file_name_of EmptyString = ".xml"%string
  ∧ ∃ n, 1 ≤ n
      ∧ PyDict.get EmptyString (scan_filenames names) = Some n
      ∧ exit_status w args = 0
      ∧ final_files w args !! dest_of EmptyString (destination_folder args)
        = Some (create_main_string EmptyString n header footer)
      ∧ create_main_string EmptyString n header footer =
          header +:+
          join ((λ i, "<INCLUDE FileName=" +:+ dquote +:+ ".Test." +:+
                      zero_padded 3 i +:+ ".xml" +:+ dquote +:+ " NameSpace=" +:+
                      dquote +:+ dquote +:+ " TAB=" +:+ dquote +:+ "10" +:+ dquote +:+
                      " LineComment=" +:+ dquote +:+ "0" +:+ dquote +:+ "/>" +:+
                      newline) <$> seqZ 1 n) +:+
          footer.
Proof.
  intros Hp Hh Hf Hd Hall Hin ->.
  assert (model_of (".Test." +:+ rest) = Some EmptyString) as Hm.
  { apply model_of_Some. split; [by exists rest | intros p' _; simpl; lia]. }
  split_and!; [done..|].
  pose proof (tally_pos EmptyString _ names Hin Hm) as Hpos.
  pose proof (scan_get names EmptyString) as Hget.
  destruct (tally EmptyString names) as [|k] eqn:Ht; [lia|].
  cbn [count_of] in Hget. exists (Z.of_nat (S k)).
  destruct (run_main_success w args header footer names Hp Hh Hf Hd Hall)
    as (Hst & Hfiles & _).
  split_and!; [lia | done | done | |].
  - rewrite Hfiles. apply written_files_lookup.
    + apply scan_keys_NoDup.
    + by apply get_Some_elem.
  - apply create_main_string_spec.
Qed.

Lemma empty_group_name_witness :
  (platform_system dot_world = "Windows"%string
   ∧ fs_dirs dot_world !! origin_folder sample_args = Some [".Test.001.xml"%string]
   ∧ all_writable dot_world (destination_folder sample_args)
       (scan_filenames [".Test.001.xml"%string])
   ∧ ".Test.001.xml"%string ∈ [".Test.001.xml"%string])
  ∧ exit_status dot_world sample_args = 0
  ∧ model_of ".Test.001.xml" = Some EmptyString.
Proof.
  assert (all_writable dot_world (destination_folder sample_args)
            (scan_filenames [".Test.001.xml"%string])) as Hall
    by (by intros g c _).
  assert (".Test.001.xml"%string ∈ [".Test.001.xml"%string]) as Hin by left.
  destruct (empty_group_name dot_world sample_args ("<ROOT>" +:+ newline)
              ("</ROOT>" +:+ newline) [".Test.001.xml"%string]
              ".Test.001.xml" "001.xml"
              eq_refl eq_refl eq_refl eq_refl Hall Hin eq_refl)
    as (Hm & _ & n & _ & _ & Hst & _).
  split_and!; [reflexivity | reflexivity | exact Hall | exact Hin | exact Hst | exact Hm].
Defined.


(** * Further properties of the code *)

(** ** The scanner's table *)

Section table_facts.
Import PyDict.

Lemma sum_counts_set k v d :
  sum_counts (set k v d) = sum_counts d - default 0 (get k d) + v.
Proof.
  induction d as [|[k' v'] d IH]; cbn [set get sum_counts foldr snd].
  - simpl. lia.
  - case_decide; cbn [sum_counts foldr snd default id]; [lia|].
    fold (sum_counts (set k v d)). fold (sum_counts d). lia.
Qed.

Lemma sum_counts_step d e :
  sum_counts (scan_step d e) =
  sum_counts d + (if contains delimiter e then 1 else 0).
Proof.
  unfold scan_step. destruct (contains delimiter e); [|lia].
  destruct (get _ d) as [n|] eqn:Hg; rewrite sum_counts_set, Hg; simpl; lia.
Qed.

Lemma sum_counts_scan l :
  sum_counts (scan_filenames l) =
  Z.of_nat (length (filter (λ e, contains delimiter e = true) l)).
Proof.
  unfold scan_filenames.
  assert (∀ d, sum_counts (fold_left scan_step l d) =
               sum_counts d +
               Z.of_nat (length (filter (λ e, contains delimiter e = true) l)))
    as H; [|by rewrite H].
  induction l as [|e l IH]; intros d; cbn [fold_left].
  - simpl. lia.
  - rewrite IH, sum_counts_step, filter_cons.
    destruct (contains delimiter e); [rewrite decide_True by done|
                                      rewrite decide_False by done]; simpl; lia.
Qed.



End table_facts.

(** X1. Every group of the scanned table has a member: its count is at
    least 1 and some listed entry has the group's name before its first
    delimiter. No group name appears twice in the table. *)
Theorem scan_table_invariant listing :
  NoDup (PyDict.keys (scan_filenames listing))
  ∧ ∀ g c, (g, c) ∈ PyDict.items (scan_filenames listing) →
      1 ≤ c
      ∧ c = Z.of_nat (tally g listing)
      ∧ ∃ e, e ∈ listing ∧ before_first delimiter e g.
Proof.
  split; [apply scan_keys_NoDup|].
  intros g c Hin. unfold PyDict.items in Hin.
  apply elem_get_Some in Hin; [|apply scan_keys_NoDup].
  rewrite scan_get in Hin. unfold tally in *.
  destruct (filter (λ e, model_of e = Some g) listing) as [|e rest] eqn:Hf;
    [done|].
  cbn [length count_of] in Hin. injection Hin as <-.
  split_and!; [lia | done |].
  assert (e ∈ filter (λ e, model_of e = Some g) listing) as He
    by (rewrite Hf; left).
  apply list_elem_of_filter in He as [Hm He].
  exists e. split; [done | by apply model_of_Some].
Qed.

Lemma scan_table_invariant_witness :
  (("X"%string, 2) ∈ PyDict.items (scan_filenames
      ["X.Test.001.xml"; "X.Test.002.xml"; "notes.txt"]%string))
  ∧ 1 ≤ 2.
Proof.
  assert (("X"%string, 2) ∈ PyDict.items (scan_filenames
            ["X.Test.001.xml"; "X.Test.002.xml"; "notes.txt"]%string)) as Hin
    by left.
  destruct (scan_table_invariant
              ["X.Test.001.xml"; "X.Test.002.xml"; "notes.txt"]%string)
    as [_ H].
  destruct (H "X"%string 2 Hin) as (H1 & _).
  exact (conj Hin H1).
Defined.

(** X2. The counts of the table add up to the number of entries whose
    name contains the delimiter: however the listing splits into entries
    that contain it and entries that do not, the total is the number of
    the former. *)
Theorem scan_counts_total listing matching others :
  listing ≡ₚ matching ++ others →
  (∀ e, e ∈ matching → has_substring delimiter e) →
  (∀ e, e ∈ others → ¬ has_substring delimiter e) →
  sum_counts (scan_filenames listing) = Z.of_nat (length matching).
Proof.
  intros Hperm Hm Ho. rewrite sum_counts_scan, Hperm, filter_app, length_app.
  assert (filter (λ e, contains delimiter e = true) matching = matching) as ->.
  { clear Hperm. induction matching as [|e m IH]; [done|].
    rewrite filter_cons, decide_True by (apply contains_spec, Hm; left).
    f_equal. apply IH. intros e' ?. apply Hm. by right. }
  assert (filter (λ e, contains delimiter e = true) others = []) as ->.
  { clear Hperm. induction others as [|e o IH]; [done|].
    rewrite filter_cons, decide_False.
    - apply IH. intros e' ?. apply Ho. by right.
    - rewrite contains_spec. apply Ho. left. }
  simpl. lia.
Qed.

Lemma scan_counts_total_witness :
  sum_counts (scan_filenames
    ["X.Test.001.xml"; "notes.txt"; "Y.Test.001.xml"]%string) = Z.of_nat 2.
Proof.
  apply (scan_counts_total _ ["X.Test.001.xml"; "Y.Test.001.xml"]%string
           ["notes.txt"%string]).
  - apply perm_skip, perm_swap.
  - intros e He. apply contains_spec.
    repeat (apply elem_of_cons in He as [->|He]; [reflexivity|]).
    by apply elem_of_nil in He.
  - intros e He. apply model_of_None.
    repeat (apply elem_of_cons in He as [->|He]; [reflexivity|]).
    by apply elem_of_nil in He.
Defined.



(** ** The rendered text *)

Section text_facts.

Lemma length_join_const (line : Z → string) (len : nat) l :
  Forall (λ i, String.length (line i) = len) l →
  String.length (join (line <$> l)) = (length l * len)%nat.
Proof.
  induction 1 as [|i l Hi _ IH]; [done|].
  rewrite fmap_cons, join_cons, str_length_app, IH, Hi. simpl. lia.
Qed.

Lemma length_format_3 i : 0 ≤ i ≤ 999 → String.length (format_0d 3 i) = 3%nat.
Proof.
  intros Hi. rewrite format_0d_nonneg by lia. unfold zero_padded.
  rewrite str_length_app, length_zeros.
  destruct (decide (i = 0)) as [->|]; [by rewrite length_digits_0|].
  destruct (decide (i < 10)); [rewrite (length_digits 0) by (simpl; lia); lia|].
  destruct (decide (i < 100)); [rewrite (length_digits 1) by (simpl; lia); lia|].
  rewrite (length_digits 2) by (simpl; lia). lia.
Qed.

Lemma length_include_line g i :
  0 ≤ i ≤ 999 → String.length (include_line g i) = (String.length g + 74)%nat.
Proof.
  intros Hi. unfold include_line.
  rewrite !str_length_app, length_format_3 by done.
  change (String.length lit_include) with 19%nat.
  change (String.length delimiter) with 6%nat.
  change (String.length lit_xml) with 6%nat.
  change (String.length lit_attrs) with 39%nat.
  change (String.length newline) with 1%nat. lia.
Qed.

End text_facts.

(** X4. One more test adds one include line just before the footer and
    changes nothing else: for a count [n >= 0], rendering [n + 1] tests is
    rendering [n] tests with the line of index [n + 1] put in front of the
    footer. *)
Theorem create_main_string_one_more g n header footer :
  0 ≤ n →
  create_main_string g (n + 1) header footer =
  create_main_string g n header (include_line g (n + 1) +:+ footer).
Proof.
  intros Hn. rewrite !create_main_string_join.
  replace (n + 1) with (Z.of_nat (S (Z.to_nat n))) at 1 by lia.
  rewrite seqZ_S, fmap_app, join_app, Z2Nat.id by lia.
  rewrite list_fmap_singleton. unfold join at 2. cbn [foldr].
  rewrite str_app_nil_r, (Z.add_comm 1 n). by rewrite !str_app_assoc.
Qed.

Lemma create_main_string_one_more_witness :
  0 ≤ 2 ∧
  create_main_string "A" (2 + 1) "<H>" "<F>" =
  create_main_string "A" 2 "<H>" (include_line "A" (2 + 1) +:+ "<F>").
Proof.
  split; [lia | apply (create_main_string_one_more "A" 2 "<H>" "<F>"); lia].
Defined.

(** X5. Up to 999 tests the size of the rendered text is known in advance:
    the header and the footer plus, for each test, a line of 74 characters
    and the group name. (From 1000 on the lines grow with the index.) *)
Theorem create_main_string_length g n header footer :
  0 ≤ n ≤ 999 →
  Z.of_nat (String.length (create_main_string g n header footer)) =
  Z.of_nat (String.length header) + Z.of_nat (String.length footer)
  + n * (Z.of_nat (String.length g) + 74).
Proof.
  intros Hn. rewrite create_main_string_join, !str_length_app.
  rewrite (length_join_const _ (String.length g + 74)).
  - rewrite length_seqZ. nia.
  - apply Forall_forall. intros i Hi%elem_of_seqZ.
    apply length_include_line. lia.
Qed.

Lemma create_main_string_length_witness :
  0 ≤ 3 ≤ 999 ∧
  Z.of_nat (String.length (create_main_string "A" 3 "<H>" "<F>")) =
  Z.of_nat (String.length "<H>") + Z.of_nat (String.length "<F>")
  + 3 * (Z.of_nat (String.length "A") + 74).
Proof.
  split; [lia | apply (create_main_string_length "A" 3 "<H>" "<F>"); lia].
Defined.

(** X6. Two different group names never share a destination: in one
    destination directory the path of a group's file determines the
    group, and that path always ends with the group's file name. *)
Theorem dest_of_distinct g1 g2 d :
  (dest_of g1 d = dest_of g2 d → g1 = g2)
  ∧ ends_with (dest_of g1 d) (g1 +:+ ".xml").
Proof.
  split; [apply (dest_of_inj d)|].
  unfold dest_of, file_name_of. by eexists.
Qed.

Lemma dest_of_distinct_witness :
  dest_of "X" "out" = dest_of "X" "out" ∧ "X"%string = "X"%string.
Proof.
  split; [reflexivity|].
  destruct (dest_of_distinct "X" "X" "out") as [H _]. exact (H eq_refl).
Defined.

(** ** What a run prints *)

Section output_facts.

Lemma outputs_app t1 t2 : outputs (t1 ++ t2) = outputs t1 ++ outputs t2.
Proof. apply filter_app. Qed.

Lemma outputs_write path text :
  outputs [EvOpenWrite path; EvWrite path text] = [].
Proof. reflexivity. Qed.

Lemma write_groups_output_write d groups w path text :
  write_groups_output d groups (write_file path text w)
  = write_groups_output d groups w.
Proof. induction groups as [|[g c] groups IH]; [done|]. cbn. by rewrite IH. Qed.

(** The loop of [main]: what it prints. *)
Lemma write_loop_output h f d groups s :
  outputs (trace (for_each groups (λ '(model_name, test_count),
      let main_string := create_main_string model_name test_count h f in
      try_except
        (create_main_file model_name main_string d ;; mret ())
        is_IOError
        (λ _, sys_exit 1)) s).2)
  = outputs (trace s) ++ write_groups_output d groups (world s).
Proof.
  revert s; induction groups as [|[g c] groups IH]; intros s.
  - cbn [for_each mret M_ret snd write_groups_output].
    by rewrite (right_id_L [] (++)).
  - cbn [for_each write_groups_output].
    rewrite bind_run, try_except_run, bind_run, create_main_file_run.
    destruct (fs_can_write (world s) (dest_of g d)) eqn:Hw.
    + cbn [mret M_ret]. rewrite IH. cbn [world trace].
      rewrite write_groups_output_write, outputs_app, outputs_write.
      by rewrite (right_id_L [] (++)).
    + cbn [is_IOError sys_exit snd trace]. by rewrite outputs_app.
Qed.

Ltac step_print :=
  rewrite bind_run; unfold print at 1, emit at 1; cbn [initial world trace].
Ltac step_skip := rewrite bind_run; cbn [mret M_ret].
Ltac step_load H :=
  rewrite bind_run, try_except_run, H; cbn [initial world trace].
Ltac step_abort := cbn [is_IOError is_OSError sys_exit]; reflexivity.
Ltac step_loop header footer d names :=
  rewrite bind_run; unfold PyDict.items;
  let s' := fresh "s'" in
  let Hrun := fresh "Hrun" in
  let Hworld := fresh "Hworld" in
  let Hout := fresh "Hout" in
  match goal with
  | |- context [for_each _ _ ?s] =>
      pose proof (write_loop_output header footer d (scan_filenames names) s)
        as Hout;
      destruct (write_loop header footer d (scan_filenames names) s)
        as (s' & Hrun & Hworld & _)
  end;
  cbv zeta in Hrun, Hout |- *; rewrite Hrun in Hout |- *;
  cbn [fst snd world trace] in *.

(** What a run prints, against the reference. *)
Lemma run_main_output w args :
  outputs (final_trace w args) = run_output w args.
Proof.
  destruct args as [o d hp fp v]. unfold final_trace, run_main, run_output, main.
  cbn [origin_folder destination_folder path_to_header path_to_footer verbose].
  rewrite bind_run. unfold get_world at 1. cbn [initial world].
  rewrite bind_run.
  destruct (decide (platform_system w = "Windows")) as [Hp|Hp].
  2:{ by rewrite bool_decide_eq_true_2 by done. }
  rewrite bool_decide_eq_false_2 by (by intros ?).
  cbn [mret M_ret].
  destruct v; cbn [when].
  - step_print. step_load load_header_run.
    destruct (fs_files w !! hp) as [header|]; [|step_abort].
    step_print. step_load load_footer_run.
    destruct (fs_files w !! fp) as [footer|]; [|step_abort].
    step_print. step_load scan_for_models_run.
    destruct (fs_dirs w !! o) as [names|]; [|step_abort].
    rewrite bind_run. step_print. rewrite bind_run.
    unfold pprint at 1, emit at 1. cbn [world trace].
    unfold print at 1, emit at 1. cbn [world trace].
    step_loop header footer d names.
    destruct (decide ((write_groups header footer d (scan_filenames names) w).1.1 = 0)).
    + step_print. cbn [sys_exit snd trace]. rewrite outputs_app, Hout.
      by rewrite <- !(assoc_L (++)).
    + cbn [snd]. rewrite Hout. by rewrite (right_id_L [] (++)).
  - step_skip. step_load load_header_run.
    destruct (fs_files w !! hp) as [header|]; [|step_abort].
    step_skip. step_load load_footer_run.
    destruct (fs_files w !! fp) as [footer|]; [|step_abort].
    step_skip. step_load scan_for_models_run.
    destruct (fs_dirs w !! o) as [names|]; [|step_abort].
    step_skip.
    step_loop header footer d names.
    destruct (decide ((write_groups header footer d (scan_filenames names) w).1.1 = 0)).
    + step_skip. cbn [sys_exit snd]. rewrite Hout.
      by rewrite (right_id_L [] (++)).
    + cbn [snd]. rewrite Hout. by rewrite (right_id_L [] (++)).
Qed.

End output_facts.

(** ** The template loaders *)





(** ** Failing writes and failing scans *)

(** X9. When the destination cannot be opened, [create_main_file] raises
    the [IOError] again after printing one line that contains the cause;
    the world is left as it was (no file is created or emptied), and the
    only I/O operation is the attempt to open the destination. *)
Theorem create_main_file_failure g text d s :
  fs_can_write (world s) (dest_of g d) = false →
  (create_main_file g text d s).1
    = Raise (IOError (fs_strerror (world s) (dest_of g d)))
  ∧ world (create_main_file g text d s).2 = world s
  ∧ io_events (trace (create_main_file g text d s).2)
    = io_events (trace s) ++ [EvOpenWrite (dest_of g d)]
  ∧ ∃ line, outputs (trace (create_main_file g text d s).2)
            = outputs (trace s) ++ [EvPrint line]
            ∧ has_substring (fs_strerror (world s) (dest_of g d)) line.
Proof.
  intros Hw. rewrite create_main_file_run, Hw. cbn [fst snd world trace].
  split_and!; [done | done | by rewrite io_events_app |].
  eexists. split; [by rewrite outputs_app|].
  exists "Couldn't open or write to file (", ").". done.
Qed.

Lemma create_main_file_failure_witness :
  fs_can_write (world (initial locked_world)) (dest_of "Y" "out") = false
  ∧ world (create_main_file "Y" "text" "out" (initial locked_world)).2
    = world (initial locked_world).
Proof.
  split; [reflexivity|].
  destruct (create_main_file_failure "Y" "text" "out" (initial locked_world) eq_refl)
    as (_ & H & _).
  exact H.
Defined.

(** X10. [scan_for_models] only lists: it asks for the directory's entries
    once and leaves the world as it was. When the directory can be listed
    it returns the table of its entries and prints nothing; otherwise it
    raises the [OSError] again after printing two lines, the second being
    the cause. *)
Theorem scan_for_models_behaviour path s :
  world (scan_for_models path s).2 = world s
  ∧ io_events (trace (scan_for_models path s).2)
    = io_events (trace s) ++ [EvListdir path]
  ∧ (∀ names, fs_dirs (world s) !! path = Some names →
       (scan_for_models path s).1 = Ret (scan_filenames names)
       ∧ outputs (trace (scan_for_models path s).2) = outputs (trace s))
  ∧ (fs_dirs (world s) !! path = None →
       (scan_for_models path s).1 = Raise (OSError (fs_strerror (world s) path))
       ∧ outputs (trace (scan_for_models path s).2)
         = outputs (trace s) ++
           [EvPrint "Error scaning origin directory!";
            EvPrint (fs_strerror (world s) path)]).
Proof.
  rewrite scan_for_models_run.
  destruct (fs_dirs (world s) !! path) as [names|]; cbn [fst snd world trace].
  - split_and!; [done | by rewrite io_events_app | | done].
    intros ? [= <-]. split; [done|].
    rewrite outputs_app. apply (right_id_L [] (++)).
  - split_and!; [done | by rewrite io_events_app | done |].
    intros _. split; [done|]. by rewrite outputs_app.
Qed.

Lemma scan_for_models_behaviour_witness :
  fs_dirs (world (initial sample_world)) !! "missing"%string = None
  ∧ (scan_for_models "missing" (initial sample_world)).1
    = Raise (OSError (fs_strerror sample_world "missing")).
Proof.
  split; [reflexivity|].
  destruct (scan_for_models_behaviour "missing" (initial sample_world))
    as (_ & _ & _ & H).
  destruct (H eq_refl) as [H1 _]. exact H1.
Defined.

(** ** Whole runs *)

Section whole_run_facts.
Context (h f d : string).

Lemma write_groups_files groups w :
  ∃ pre post, groups = pre ++ post ∧
    fs_files (write_groups h f d groups w).1.2
    = written_files h f d pre (fs_files w).
Proof.
  revert w; induction groups as [|[g c] groups IH]; intros w.
  - by exists [], [].
  - cbn [write_groups]. destruct (fs_can_write w (dest_of g d)).
    + destruct (IH (write_file (dest_of g d) (create_main_string g c h f) w))
        as (pre & post & -> & Hfiles).
      destruct (write_groups h f d (pre ++ post) _) as [[st w'] evs].
      by exists ((g, c) :: pre), post.
    + by exists [], ((g, c) :: groups).
Qed.

Lemma write_groups_events groups w :
  Forall (λ e, is_file_write e = true) (write_groups h f d groups w).2.
Proof.
  revert w; induction groups as [|[g c] groups IH]; intros w; [constructor|].
  cbn [write_groups]. destruct (fs_can_write w (dest_of g d)).
  - specialize (IH (write_file (dest_of g d) (create_main_string g c h f) w)).
    destruct (write_groups h f d groups _) as [[st w'] evs].
    by repeat constructor.
  - by repeat constructor.
Qed.

Lemma write_groups_output_status groups w :
  ((write_groups h f d groups w).1.1 = 0 ∧ write_groups_output d groups w = [])
  ∨ ((write_groups h f d groups w).1.1 = 1
     ∧ ∃ line, write_groups_output d groups w = [EvPrint line]).
Proof.
  revert w; induction groups as [|[g c] groups IH]; intros w; [by left|].
  cbn [write_groups write_groups_output].
  destruct (fs_can_write w (dest_of g d)); [|right; split; [done | by eexists]].
  specialize (IH (write_file (dest_of g d) (create_main_string g c h f) w)).
  rewrite write_groups_output_write in IH.
  by destruct (write_groups h f d groups _) as [[st w'] evs].
Qed.

End whole_run_facts.

Lemma writes_come_last (reads evs A B : list event) e :
  reads ++ evs = A ++ e :: B →
  Forall (λ e, is_file_write e = false) reads →
  Forall (λ e, is_file_write e = true) evs →
  is_file_write e = true →
  Forall (λ e, is_file_write e = true) B.
Proof.
  revert A; induction reads as [|r reads IH]; intros A Heq Hr Hw He.
  - cbn [app] in Heq. rewrite Heq in Hw.
    apply Forall_app in Hw as [_ Hw]. by apply Forall_cons in Hw as [_ ?].
  - apply Forall_cons in Hr as [Hr0 Hr]. destruct A as [|a A].
    + injection Heq as -> _. congruence.
    + injection Heq as _ Heq. by apply (IH A).
Qed.

(** X11. A run changes no file other than the destinations of the groups
    it scanned: every other path holds after the run what it held before,
    whether the run succeeds or fails. *)
Theorem main_touches_only_destinations w args path :
  (∀ names g c,
     fs_dirs w !! origin_folder args = Some names →
     (g, c) ∈ PyDict.items (scan_filenames names) →
     dest_of g (destination_folder args) ≠ path) →
  final_files w args !! path = fs_files w !! path.
Proof.
  intros Hne. destruct (run_main_effect w args) as (s' & Hrun & Hworld & _).
  unfold final_files. rewrite Hrun. cbn [snd]. rewrite Hworld.
  unfold run_effect.
  destruct (decide (platform_system w = "Windows")); [|done].
  destruct (fs_files w !! path_to_header args) as [header|]; [|done].
  destruct (fs_files w !! path_to_footer args) as [footer|]; [|done].
  destruct (fs_dirs w !! origin_folder args) as [names|] eqn:Hd; [|done].
  destruct (write_groups_files header footer (destination_folder args)
              (scan_filenames names) w) as (pre & post & Hsplit & Hfiles).
  destruct (write_groups header footer (destination_folder args)
              (scan_filenames names) w) as [[st w'] evs].
  cbn [fst snd] in *. rewrite Hfiles. apply written_files_other.
  intros g c Hin. apply (Hne names g c eq_refl).
  unfold PyDict.items. rewrite Hsplit. apply elem_of_app. by left.
Qed.

Lemma main_touches_only_destinations_witness :
  final_files sample_world sample_args !! "h.txt"%string
  = fs_files sample_world !! "h.txt"%string.
Proof.
  apply (main_touches_only_destinations sample_world sample_args "h.txt").
  intros names g c [= <-] Hin.
  repeat (apply elem_of_cons in Hin as [[= -> ->]|Hin]; [discriminate|]).
  by apply elem_of_nil in Hin.
Defined.

(** X12. Everything is read before anything is written: once a run has
    opened a destination for writing, it opens no template and lists no
    directory any more. *)
Theorem main_reads_before_writes w args t1 e t2 :
  final_trace w args = t1 ++ e :: t2 →
  is_file_write e = true →
  Forall (λ e', is_file_read e' = false) t2.
Proof.
  intros Htrace He.
  destruct (run_main_effect w args) as (s' & Hrun & _ & Hio).
  unfold final_trace in Htrace. rewrite Hrun in Htrace. cbn [snd] in Htrace.
  rewrite Htrace, io_events_app in Hio.
  assert (io_events (e :: t2) = e :: io_events t2) as Hcons.
  { unfold io_events. rewrite filter_cons, decide_True; [done | by destruct e]. }
  rewrite Hcons in Hio. clear Hcons.
  assert (Forall (λ e, is_file_write e = true) (io_events t2)) as Hw.
  { unfold run_effect in Hio.
    destruct (decide (platform_system w = "Windows")); cbn [snd] in Hio.
    2:{ by destruct (io_events t1). }
    destruct (fs_files w !! path_to_header args) as [header|]; cbn [snd] in Hio.
    2:{ symmetry in Hio.
        eapply (writes_come_last _ [] _ _ e); [by rewrite (right_id_L [] (++))|..];
          [by repeat constructor | constructor | done]. }
    destruct (fs_files w !! path_to_footer args) as [footer|]; cbn [snd] in Hio.
    2:{ symmetry in Hio.
        eapply (writes_come_last _ [] _ _ e); [by rewrite (right_id_L [] (++))|..];
          [by repeat constructor | constructor | done]. }
    destruct (fs_dirs w !! origin_folder args) as [names|]; cbn [snd] in Hio.
    2:{ symmetry in Hio.
        eapply (writes_come_last _ [] _ _ e); [by rewrite (right_id_L [] (++))|..];
          [by repeat constructor | constructor | done]. }
    pose proof (write_groups_events header footer (destination_folder args)
                  (scan_filenames names) w) as Hev.
    destruct (write_groups header footer (destination_folder args)
                (scan_filenames names) w) as [[st w'] evs].
    cbn [snd] in *. symmetry in Hio.
    eapply (writes_come_last _ _ _ _ e); [exact Hio | by repeat constructor | done..]. }
  apply Forall_forall. intros e' Hin.
  destruct (is_file_read e') eqn:Hr; [|done].
  assert (e' ∈ io_events t2) as Hin'.
  { unfold io_events. apply list_elem_of_filter. split; [by destruct e' | done]. }
  rewrite Forall_forall in Hw. specialize (Hw e' Hin'). by destruct e'.
Qed.

Lemma main_reads_before_writes_witness :
  final_trace sample_world sample_args
  = [EvOpenRead "h.txt"; EvOpenRead "f.txt"; EvListdir "in"] ++
    EvOpenWrite (dest_of "X" "out") ::
    [EvWrite (dest_of "X" "out")
       (create_main_string "X" 2 ("<ROOT>" +:+ newline) ("</ROOT>" +:+ newline));
     EvOpenWrite (dest_of "Y" "out");
     EvWrite (dest_of "Y" "out")
       (create_main_string "Y" 1 ("<ROOT>" +:+ newline) ("</ROOT>" +:+ newline))]
  ∧ Forall (λ e', is_file_read e' = false)
      [EvWrite (dest_of "X" "out")
         (create_main_string "X" 2 ("<ROOT>" +:+ newline) ("</ROOT>" +:+ newline));
       EvOpenWrite (dest_of "Y" "out");
       EvWrite (dest_of "Y" "out")
         (create_main_string "Y" 1 ("<ROOT>" +:+ newline) ("</ROOT>" +:+ newline))].
Proof.
  assert (final_trace sample_world sample_args
          = [EvOpenRead "h.txt"; EvOpenRead "f.txt"; EvListdir "in"] ++
            EvOpenWrite (dest_of "X" "out") ::
            [EvWrite (dest_of "X" "out")
               (create_main_string "X" 2 ("<ROOT>" +:+ newline) ("</ROOT>" +:+ newline));
             EvOpenWrite (dest_of "Y" "out");
             EvWrite (dest_of "Y" "out")
               (create_main_string "Y" 1 ("<ROOT>" +:+ newline) ("</ROOT>" +:+ newline))])
    as Htrace by (by vm_compute).
  split; [exact Htrace|].
  exact (main_reads_before_writes sample_world sample_args _ _ _ Htrace eq_refl).
Defined.

(** X13. Without the verbose flag a run that ends with status 0 prints
    nothing at all. *)
Theorem main_quiet_on_success w args :
  verbose args = false →
  exit_status w args = 0 →
  outputs (final_trace w args) = [].
Proof.
  intros Hv Hst. rewrite run_main_output.
  destruct (run_main_effect w args) as (s' & Hrun & _ & _).
  unfold exit_status in Hst. rewrite Hrun in Hst. cbn [fst] in Hst.
  unfold run_output, run_effect in *. rewrite Hv.
  destruct (decide (platform_system w = "Windows")); [|done].
  destruct (fs_files w !! path_to_header args) as [header|]; [|done].
  destruct (fs_files w !! path_to_footer args) as [footer|]; [|done].
  destruct (fs_dirs w !! origin_folder args) as [names|]; [|done].
  destruct (write_groups_output_status header footer (destination_folder args)
              (scan_filenames names) w) as [[H0 ->]|[H1 _]].
  - by rewrite decide_True by done.
  - destruct (write_groups header footer (destination_folder args)
                (scan_filenames names) w) as [[st w'] evs].
    cbn [fst snd] in *. congruence.
Qed.

Lemma main_quiet_on_success_witness :
  (verbose sample_args = false ∧ exit_status sample_world sample_args = 0)
  ∧ outputs (final_trace sample_world sample_args) = [].
Proof.
  assert (exit_status sample_world sample_args = 0) as Hst by (by vm_compute).
  split; [by split|].
  exact (main_quiet_on_success sample_world sample_args eq_refl Hst).
Defined.



(** X15. With the verbose flag a run in which every step succeeds prints,
    in this order: that verbosity is on, that the header and then the
    footer were loaded, the announcement of the table, the table itself,
    an empty line, and the final success message; nothing else. *)
Theorem main_verbose_report w args header footer names :
  verbose args = true →
  platform_system w = "Windows"%string →
  fs_files w !! path_to_header args = Some header →
  fs_files w !! path_to_footer args = Some footer →
  fs_dirs w !! origin_folder args = Some names →
  all_writable w (destination_folder args) (scan_filenames names) →
  outputs (final_trace w args) =
  [EvPrint (newline +:+ "Verbosity turned on!" +:+ newline);
   EvPrint ("Header successfully loaded!" +:+ newline);
   EvPrint ("Footer successfully loaded!" +:+ newline);
   EvPrint ("The folliwng models detected are shown as: {'model_name': test_count}"
            +:+ newline);
   EvPPrint (scan_filenames names);
   EvPrint EmptyString;
   EvPrint "Created model_name.xml files successfully!"].
Proof.
  intros Hv Hp Hh Hf Hd Hall. rewrite run_main_output. unfold run_output.
  rewrite Hv, decide_True, Hh, Hf, Hd by done.
  apply (write_groups_status_0 header footer) in Hall.
  destruct (write_groups_output_status header footer (destination_folder args)
              (scan_filenames names) w) as [[H0 ->]|[H1 _]]; [|congruence].
  by rewrite decide_True by done.
Qed.

Lemma main_verbose_report_witness :
  all_writable sample_world (destination_folder (with_verbose true sample_args))
    (scan_filenames ["X.Test.001.xml"; "X.Test.002.xml"; "notes.txt";
                     "Y.Test.001.xml"]%string)
  ∧ outputs (final_trace sample_world (with_verbose true sample_args)) =
    [EvPrint (newline +:+ "Verbosity turned on!" +:+ newline);
     EvPrint ("Header successfully loaded!" +:+ newline);
     EvPrint ("Footer successfully loaded!" +:+ newline);
     EvPrint ("The folliwng models detected are shown as: {'model_name': test_count}"
              +:+ newline);
     EvPPrint (scan_filenames ["X.Test.001.xml"; "X.Test.002.xml"; "notes.txt";
                               "Y.Test.001.xml"]%string);
     EvPrint EmptyString;
     EvPrint "Created model_name.xml files successfully!"].
Proof.
  assert (all_writable sample_world
            (destination_folder (with_verbose true sample_args))
            (scan_filenames ["X.Test.001.xml"; "X.Test.002.xml"; "notes.txt";
                             "Y.Test.001.xml"]%string)) as Hall
    by (by intros g c _).
  split; [exact Hall|].
  exact (main_verbose_report sample_world (with_verbose true sample_args)
           ("<ROOT>" +:+ newline) ("</ROOT>" +:+ newline) _
           eq_refl eq_refl eq_refl eq_refl eq_refl Hall).
Defined.

(** X16. A run in which every step succeeds ends with status 0 and
    leaves, for every scanned group, that group's rendered text in that
    group's file. *)
Theorem main_success_files w args header footer names :
  platform_system w = "Windows"%string →
  fs_files w !! path_to_header args = Some header →
  fs_files w !! path_to_footer args = Some footer →
  fs_dirs w !! origin_folder args = Some names →
  all_writable w (destination_folder args) (scan_filenames names) →
  exit_status w args = 0
  ∧ ∀ g c, (g, c) ∈ PyDict.items (scan_filenames names) →
      final_files w args !! dest_of g (destination_folder args)
      = Some (create_main_string g c header footer).
Proof.
  intros Hp Hh Hf Hd Hall.
  destruct (run_main_success w args header footer names Hp Hh Hf Hd Hall)
    as (Hst & Hfiles & _).
  split; [done|]. intros g c Hin. rewrite Hfiles.
  apply written_files_lookup; [apply scan_keys_NoDup | done].
Qed.

Lemma main_success_files_witness :
  all_writable sample_world (destination_folder sample_args)
    (scan_filenames ["X.Test.001.xml"; "X.Test.002.xml"; "notes.txt";
                     "Y.Test.001.xml"]%string)
  ∧ exit_status sample_world sample_args = 0.
Proof.
  assert (all_writable sample_world (destination_folder sample_args)
            (scan_filenames ["X.Test.001.xml"; "X.Test.002.xml"; "notes.txt";
                             "Y.Test.001.xml"]%string)) as Hall
    by (by intros g c _).
  split; [exact Hall|].
  destruct (main_success_files sample_world sample_args
              ("<ROOT>" +:+ newline) ("</ROOT>" +:+ newline) _
              eq_refl eq_refl eq_refl eq_refl Hall) as [H _].
  exact H.
Defined.

(** X17. A group name of the table never contains the delimiter, and each
    entry counted for a group is the group name, the delimiter, and the
    rest of the entry's name. *)
Theorem group_name_has_no_delimiter e g :
  before_first delimiter e g →
  ¬ has_substring delimiter g
  ∧ model_of e = Some g
  ∧ ∃ rest, e = g +:+ ".Test." +:+ rest.
Proof.
  intros Hb. split_and!.
  - intros [p [r Hg]]. destruct Hb as [[rest He] Hmin].
    assert (occurs_after delimiter e p) as Hocc.
    { exists (r +:+ delimiter +:+ rest). rewrite He, Hg.
      by rewrite !str_app_assoc. }
    specialize (Hmin p Hocc). rewrite Hg, !str_length_app in Hmin.
    change (String.length delimiter) with 6%nat in Hmin. lia.
  - by apply model_of_Some.
  - destruct Hb as [[rest He] _]. by exists rest.
Qed.

Lemma group_name_has_no_delimiter_witness :
  before_first delimiter "X.Test.001.Test.xml" "X"
  ∧ ¬ has_substring delimiter "X".
Proof.
  assert (before_first delimiter "X.Test.001.Test.xml" "X") as Hb
    by (apply model_of_Some; reflexivity).
  destruct (group_name_has_no_delimiter "X.Test.001.Test.xml" "X" Hb) as [H _].
  exact (conj Hb H).
Defined.
